(** * TimezoneTranslator: a shallow embedding and its verified properties

    The development follows [src/TimezoneTranslator.cpp] and
    [src/TimezoneTranslator.h].  Fixed-width C integers are integers of [Z]
    with every conversion written out as a reduction modulo a power of two;
    the two structs that the translator owns are records; the functions that
    can fail to produce a value (a weekday scan that never exits, a read past
    the end of [MONTH_DAYS]) live in the [option] monad, [None] standing for
    "the C++ call has no defined result".

    Integer promotion is that of the 32-bit targets of the library (ESP8266,
    ESP32): [int] is 32 bits wide, [unsigned long] is 32 bits wide. *)

From Stdlib Require Import ZArith Lia List Bool.
Import ListNotations.
Local Open Scope Z_scope.

(* ================================================================== *)
(** ** Machine integers *)
(* ================================================================== *)

Definition u8  (x : Z) : Z := x mod 2 ^ 8.
Definition u16 (x : Z) : Z := x mod 2 ^ 16.
Definition u32 (x : Z) : Z := x mod 2 ^ 32.
Definition u64 (x : Z) : Z := x mod 2 ^ 64.

Definition is_u8  (x : Z) : Prop := 0 <= x < 2 ^ 8.
Definition is_u16 (x : Z) : Prop := 0 <= x < 2 ^ 16.
Definition is_u32 (x : Z) : Prop := 0 <= x < 2 ^ 32.
Definition is_u64 (x : Z) : Prop := 0 <= x < 2 ^ 64.
Definition is_i8  (x : Z) : Prop := - 2 ^ 7 <= x < 2 ^ 7.
Definition is_i16 (x : Z) : Prop := - 2 ^ 15 <= x < 2 ^ 15.

(** A C scalar used as a condition: non-zero is true. *)
Definition c_true (x : Z) : bool := negb (x =? 0).

(* ================================================================== *)
(** ** The option monad of partial results *)
(* ================================================================== *)

Definition obind {A B : Type} (m : option A) (k : A -> option B) : option B :=
  match m with
  | Some a => k a
  | None => None
  end.

Notation "x <- m ;; k" := (obind m (fun x => k))
  (at level 61, m at next level, right associativity).

(* ================================================================== *)
(** ** Data model (TimezoneTranslator.h) *)
(* ================================================================== *)

(** [static const uint32_t UNIX_OFFSET_2020 = 1577836800UL;] *)
Definition UNIX_OFFSET_2020 : Z := 1577836800.

(** [struct TimezoneDefinition] *)
Record TimezoneDefinition : Type := mkTz {
  dst_start_month : Z;   (* uint8_t *)
  dst_start_week  : Z;   (* int8_t  *)
  dst_end_month   : Z;   (* uint8_t *)
  dst_end_week    : Z;   (* int8_t  *)
  dst_weekday     : Z;   (* uint8_t *)
  dst_start_hour  : Z;   (* uint8_t *)
  dst_end_hour    : Z;   (* uint8_t *)
  offset_min      : Z;   (* int16_t *)
  offset_dst_min  : Z    (* int16_t *)
}.

(** [struct DstCache] *)
Record DstCache : Type := mkCache {
  valid_from_ms  : Z;    (* uint64_t *)
  valid_until_ms : Z;    (* uint64_t *)
  current_offset : Z     (* int16_t  *)
}.

(** [struct TimeStruct] *)
Record TimeStruct : Type := mkTime {
  year    : Z;           (* uint16_t *)
  month   : Z;           (* uint8_t  *)
  day     : Z;           (* uint8_t  *)
  hour    : Z;           (* uint8_t  *)
  minute  : Z;           (* uint8_t  *)
  second  : Z;           (* uint8_t  *)
  ms      : Z;           (* uint16_t *)
  weekday : Z            (* uint8_t  *)
}.

(** The private members [_tz] and [_cache] of [class TimezoneTranslator]. *)
Record TimezoneTranslator : Type := mkTranslator {
  tz_    : TimezoneDefinition;
  cache_ : DstCache
}.

(** Every field of a definition holds a value of its C type. *)
Record wf_tz (tz : TimezoneDefinition) : Prop := mkWfTz {
  wf_start_month : is_u8 (dst_start_month tz);
  wf_start_week  : is_i8 (dst_start_week tz);
  wf_end_month   : is_u8 (dst_end_month tz);
  wf_end_week    : is_i8 (dst_end_week tz);
  wf_weekday     : is_u8 (dst_weekday tz);
  wf_start_hour  : is_u8 (dst_start_hour tz);
  wf_end_hour    : is_u8 (dst_end_hour tz);
  wf_offset      : is_i16 (offset_min tz);
  wf_offset_dst  : is_i16 (offset_dst_min tz)
}.

(** The empty cache [{ 0, 0, 0 }]. *)
Definition emptyCache : DstCache := mkCache 0 0 0.

(** The constructor: UTC, no DST, empty cache. *)
Definition newTranslator : TimezoneTranslator :=
  mkTranslator (mkTz 0 0 0 0 0 0 0 0 0) emptyCache.

(* ================================================================== *)
(** ** Calendar arithmetic *)
(* ================================================================== *)

(** [static const uint8_t MONTH_DAYS[12]] *)
Definition MONTH_DAYS : list Z := [31; 28; 31; 30; 31; 30; 31; 31; 30; 31; 30; 31].

(** [MONTH_DAYS[i]]; an index outside the array has no defined value. *)
Definition MONTH_DAYS_at (i : Z) : option Z :=
  if i <? 0 then None else nth_error MONTH_DAYS (Z.to_nat i).

(** [isLeapYear]: returns the [int8_t] 1 or 0. *)
Definition isLeapYear (year : Z) : Z :=
  if year mod 400 =? 0 then 1
  else if year mod 100 =? 0 then 0
  else if year mod 4 =? 0 then 1
  else 0.

(** [getDaysInMonth] *)
Definition getDaysInMonth (month year : Z) : Z :=
  if (month <? 1) || (month >? 12) then 0
  else if c_true (isLeapYear year) && (month =? 2) then 29
  else match MONTH_DAYS_at (month - 1) with
       | Some d => d
       | None => 0
       end.

(** [getWeekdayFromDays]: [(uint8_t)((daysSinceEpoch + 4) % 7)] on [uint32_t]. *)
Definition getWeekdayFromDays (daysSinceEpoch : Z) : Z :=
  u8 (u32 (daysSinceEpoch + 4) mod 7).

(** [getWeekday] *)
Definition getWeekday (utcMs : Z) : Z :=
  getWeekdayFromDays (u32 (utcMs / 86400000)).

(** The expression
    [(years + 1) / 4 - (years + 69) / 100 + (years + 369) / 400]
    on [uint32_t], which the source writes out in [dateToDays],
    [toTimeStruct] and [yearFromDays]. *)
Definition leapsSince1970 (years : Z) : Z :=
  u32 (u32 (years + 1) / 4 - u32 (years + 69) / 100 + u32 (years + 369) / 400).

(** One iteration of the month loop of [dateToDays]. *)
Definition dateToDays_step (year : Z) (acc : option Z) (m : Z) : option Z :=
  days <- acc ;;
  md <- MONTH_DAYS_at (m - 1) ;;
  let days := u32 (days + md) in
  Some (if (m =? 2) && c_true (isLeapYear year) then u32 (days + 1) else days).

(** The values [1, 2, ..., month - 1] taken by the loop variable of
    [for (uint8_t m = 1; m < month; m++)]. *)
Definition monthsBefore (month : Z) : list Z :=
  map Z.of_nat (seq 1 (Z.to_nat (month - 1))).

(** [dateToDays] *)
Definition dateToDays (year month day : Z) : option Z :=
  let years := u32 (year - 1970) in
  let leaps := leapsSince1970 years in
  let days := u32 (years * 365 + leaps) in
  days <- fold_left (dateToDays_step year) (monthsBefore month) (Some days) ;;
  Some (u32 (days + (day - 1))).

(** [dateToMs] *)
Definition dateToMs (year month day hour minute second : Z) : option Z :=
  days <- dateToDays year month day ;;
  let ms := u64 (days * 86400000) in
  let ms := u64 (ms + u32 (hour * 3600000)) in
  let ms := u64 (ms + u32 (minute * 60000)) in
  let ms := u64 (ms + u32 (second * 1000)) in
  Some ms.

(** The [while (lo < hi)] loop of [yearFromDays]; one unit of fuel is one
    execution of the loop body. *)
Fixpoint yearFromDays_loop (fuel : nat) (lo hi days : Z) : option Z :=
  if lo <? hi then
    match fuel with
    | O => None
    | S fuel' =>
        let mid := u16 (lo + (hi - lo) / 2) in
        let y := u32 (mid - 1970) in
        let leaps := leapsSince1970 y in
        if u32 (y * 365 + leaps) >? days
        then yearFromDays_loop fuel' lo mid days
        else yearFromDays_loop fuel' (u16 (mid + 1)) hi days
    end
  else Some (u16 (lo - 1)).

(** [yearFromDays]: the search interval 1971..2501 is exhausted after at
    most ten halvings (lemma [yearFromDays_total]). *)
Definition yearFromDays (days : Z) : option Z :=
  yearFromDays_loop 10 1971 2501 days.

(** [yearFromMs] *)
Definition yearFromMs (utcMs : Z) : option Z :=
  yearFromDays (u32 (utcMs / 86400000)).

(** The month loop of [toTimeStruct]; [month] and [daysRemaining] are the
    loop-carried variables, the result is their value at exit. *)
Fixpoint toTimeStruct_loop (fuel : nat) (year month daysRemaining : Z)
  : option (Z * Z) :=
  md <- MONTH_DAYS_at (month - 1) ;;
  if daysRemaining >=? md then
    let daysInM := if (month =? 2) && c_true (isLeapYear year) then 29 else md in
    if daysRemaining >=? daysInM then
      match fuel with
      | O => None
      | S fuel' =>
          toTimeStruct_loop fuel' year (u8 (month + 1)) (u32 (daysRemaining - daysInM))
      end
    else Some (month, daysRemaining)
  else Some (month, daysRemaining).

(** [toTimeStruct] for a non-null destination (a null destination makes the
    call a no-op).  Twelve units of fuel let the loop reach [month = 13],
    where it reads past [MONTH_DAYS]. *)
Definition toTimeStruct (utcMs : Z) : option TimeStruct :=
  let daysSinceEpoch := u32 (utcMs / 86400000) in
  let remainderMs := u32 (u64 (utcMs - daysSinceEpoch * 86400000)) in
  let ms_ := u16 (remainderMs mod 1000) in
  let remainderSec := remainderMs / 1000 in
  let second_ := u8 (remainderSec mod 60) in
  let minute_ := u8 ((remainderSec / 60) mod 60) in
  let hour_ := u8 (remainderSec / 3600) in
  year_ <- yearFromDays daysSinceEpoch ;;
  let yearOffset := u32 (year_ - 1970) in
  let leaps := leapsSince1970 yearOffset in
  let daysRemaining := u32 (daysSinceEpoch - u32 (yearOffset * 365 + leaps)) in
  md <- toTimeStruct_loop 12 year_ 1 daysRemaining ;;
  let '(month_, daysRemaining) := md in
  Some (mkTime year_ month_ (u8 (daysRemaining + 1)) hour_ minute_ second_ ms_
               (getWeekdayFromDays daysSinceEpoch)).

(* ================================================================== *)
(** ** DST rule evaluator *)
(* ================================================================== *)

(** The forward scan of [getDstSwitchDay],
    [while (wd != tz.dst_weekday) { switchDay++; wd = (wd + 1) % 7; }];
    one unit of fuel is one execution of the loop body and [None] means
    that the fuel ran out before the loop condition became false. *)
Fixpoint scanForward (fuel : nat) (wd switchDay target : Z) : option Z :=
  if negb (wd =? target) then
    match fuel with
    | O => None
    | S fuel' => scanForward fuel' (u8 (Z.rem (wd + 1) 7)) (u8 (switchDay + 1)) target
    end
  else Some switchDay.

(** The backward scan of [getDstSwitchDay],
    [while (lastWeekday != tz.dst_weekday) { switchDay--;
       lastWeekday = (lastWeekday == 0) ? 6 : lastWeekday - 1; }]. *)
Fixpoint scanBackward (fuel : nat) (lastWeekday switchDay target : Z) : option Z :=
  if negb (lastWeekday =? target) then
    match fuel with
    | O => None
    | S fuel' =>
        scanBackward fuel'
          (if lastWeekday =? 0 then 6 else u8 (lastWeekday - 1))
          (u8 (switchDay - 1)) target
    end
  else Some switchDay.

(** [getDstSwitchDay], with the number of loop iterations it may spend. *)
Definition getDstSwitchDay_fuel (fuel : nat) (year month : Z)
    (tz : TimezoneDefinition) (isStart : bool) : option Z :=
  let targetWeek := if isStart then dst_start_week tz else dst_end_week tz in
  days <- dateToDays year month 1 ;;
  let firstWeekday := getWeekdayFromDays days in
  if targetWeek >? 0 then
    switchDay <- scanForward fuel firstWeekday 1 (dst_weekday tz) ;;
    Some (u8 (switchDay + 7 * (targetWeek - 1)))
  else
    let daysInM := getDaysInMonth month year in
    let lastWeekday := u8 (Z.rem (firstWeekday + daysInM - 1) 7) in
    scanBackward fuel lastWeekday daysInM (dst_weekday tz).

(** A scan that exits at all exits within 256 iterations (lemma
    [getDstSwitchDay_fuel_adequate]), so this is the result of the C++
    function whenever it has one. *)
Definition SCAN_FUEL : nat := 256.

(** [getDstSwitchDay] *)
Definition getDstSwitchDay (year month : Z) (tz : TimezoneDefinition)
    (isStart : bool) : option Z :=
  getDstSwitchDay_fuel SCAN_FUEL year month tz isStart.

(** [computeDstStartMs] *)
Definition computeDstStartMs (year : Z) (tz : TimezoneDefinition) : option Z :=
  startDay <- getDstSwitchDay year (dst_start_month tz) tz true ;;
  startLocal <- dateToMs year (dst_start_month tz) startDay (dst_start_hour tz) 0 0 ;;
  Some (u64 (startLocal - offset_min tz * 60000)).

(** [computeDstEndMs] *)
Definition computeDstEndMs (year : Z) (tz : TimezoneDefinition) : option Z :=
  endDay <- getDstSwitchDay year (dst_end_month tz) tz false ;;
  endLocal <- dateToMs year (dst_end_month tz) endDay (dst_end_hour tz) 0 0 ;;
  Some (u64 (endLocal - offset_dst_min tz * 60000)).

(** [computeDstTransitions]: the two out-parameters as a pair. *)
Definition computeDstTransitions (year : Z) (tz : TimezoneDefinition)
  : option (Z * Z) :=
  outStartMs <- computeDstStartMs year tz ;;
  outEndMs <- computeDstEndMs year tz ;;
  Some (outStartMs, outEndMs).

(* ================================================================== *)
(** ** Offset resolver *)
(* ================================================================== *)

(** The hit test [utcMs >= cache.valid_from_ms && utcMs < cache.valid_until_ms]. *)
Definition cacheHit (utcMs : Z) (cache : DstCache) : bool :=
  (utcMs >=? valid_from_ms cache) && (utcMs <? valid_until_ms cache).

(** The miss path shared, statement for statement, by [getOffsetForUtc] and
    [getOffsetForLocal]: it computes the transitions of the year of [utcMs]
    and returns them together with the cache it assigns. *)
Definition missPeriod (utcMs : Z) (tz : TimezoneDefinition)
  : option (Z * Z * DstCache) :=
  year <- yearFromMs utcMs ;;
  tr <- computeDstTransitions year tz ;;
  let '(dstStartMs, dstEndMs) := tr in
  cache <-
    (if dstStartMs <? dstEndMs then
       if utcMs <? dstStartMs then
         e <- computeDstEndMs (u16 (year - 1)) tz ;;
         Some (mkCache e dstStartMs (offset_min tz))
       else if utcMs <? dstEndMs then
         Some (mkCache dstStartMs dstEndMs (offset_dst_min tz))
       else
         s <- computeDstStartMs (u16 (year + 1)) tz ;;
         Some (mkCache dstEndMs s (offset_min tz))
     else
       if utcMs <? dstEndMs then
         s <- computeDstStartMs (u16 (year - 1)) tz ;;
         Some (mkCache s dstEndMs (offset_dst_min tz))
       else if utcMs <? dstStartMs then
         Some (mkCache dstEndMs dstStartMs (offset_min tz))
       else
         e <- computeDstEndMs (u16 (year + 1)) tz ;;
         Some (mkCache dstStartMs e (offset_dst_min tz))) ;;
  Some (dstStartMs, dstEndMs, cache).

(** [getOffsetForUtc]: the returned offset and the cache after the call. *)
Definition getOffsetForUtc (utcMs : Z) (tz : TimezoneDefinition)
    (cache : DstCache) : option (Z * DstCache) :=
  if dst_start_month tz =? 0 then Some (offset_min tz, cache)
  else if cacheHit utcMs cache then Some (current_offset cache, cache)
  else
    p <- missPeriod utcMs tz ;;
    let '(_, _, cache) := p in
    Some (current_offset cache, cache).

(** [getOffsetForLocal] as defined in the .cpp file.  The header declares a
    fourth parameter [bool preferDst = true]; the definition has none and
    its body never consults one, so the parameter is carried here without
    being used. *)
Definition getOffsetForLocal (localMs : Z) (tz : TimezoneDefinition)
    (cache : DstCache) (preferDst : bool) : option (Z * DstCache) :=
  if dst_start_month tz =? 0 then Some (offset_min tz, cache)
  else
    let approxUtc := u64 (localMs - offset_min tz * 60000) in
    if cacheHit approxUtc cache then Some (current_offset cache, cache)
    else
      p <- missPeriod approxUtc tz ;;
      let '(dstStartMs, dstEndMs, cache) := p in
      let dstStartLocal := u64 (dstStartMs + offset_min tz * 60000) in
      let dstEndLocal := u64 (dstEndMs + offset_dst_min tz * 60000) in
      if dstStartMs <? dstEndMs then
        if (localMs >=? dstStartLocal) && (localMs <? dstEndLocal)
        then Some (offset_dst_min tz, cache)
        else Some (offset_min tz, cache)
      else
        if (localMs >=? dstStartLocal) || (localMs <? dstEndLocal)
        then Some (offset_dst_min tz, cache)
        else Some (offset_min tz, cache).

(* ================================================================== *)
(** ** Translator facade *)
(* ================================================================== *)

(** [setLocalTimezone]: the returned flag and the instance after the call. *)
Definition setLocalTimezone (self : TimezoneTranslator) (tz : TimezoneDefinition)
  : bool * TimezoneTranslator :=
  if (dst_start_month tz >? 12) || (dst_end_month tz >? 12) then (false, self)
  else if negb (dst_start_month tz =? 0) && (dst_end_month tz =? 0) then (false, self)
  else (true, mkTranslator tz emptyCache).

(** [utcToLocal(uint64_t, const TimezoneDefinition&)] *)
Definition utcToLocal (utcMs : Z) (tz : TimezoneDefinition) : option Z :=
  if dst_start_month tz =? 0 then Some (u64 (utcMs + offset_min tz * 60000))
  else
    r <- getOffsetForUtc utcMs tz emptyCache ;;
    Some (u64 (utcMs + fst r * 60000)).

(** [utcToLocal(uint64_t)]: uses and updates the instance cache. *)
Definition utcToLocal_self (self : TimezoneTranslator) (utcMs : Z)
  : option (Z * TimezoneTranslator) :=
  r <- getOffsetForUtc utcMs (tz_ self) (cache_ self) ;;
  Some (u64 (utcMs + fst r * 60000), mkTranslator (tz_ self) (snd r)).

(** [localToUtc(uint64_t, const TimezoneDefinition&)] with the parameter
    [preferDst] of its declaration in the header. *)
Definition localToUtc (localMs : Z) (tz : TimezoneDefinition) (preferDst : bool)
  : option Z :=
  if dst_start_month tz =? 0 then Some (u64 (localMs - offset_min tz * 60000))
  else
    r <- getOffsetForLocal localMs tz emptyCache preferDst ;;
    Some (u64 (localMs - fst r * 60000)).

(** [localToUtc(uint64_t)]: uses and updates the instance cache. *)
Definition localToUtc_self (self : TimezoneTranslator) (localMs : Z)
    (preferDst : bool) : option (Z * TimezoneTranslator) :=
  r <- getOffsetForLocal localMs (tz_ self) (cache_ self) preferDst ;;
  Some (u64 (localMs - fst r * 60000), mkTranslator (tz_ self) (snd r)).

(** [normalize32] *)
Definition normalize32 (utcSec : Z) : Z :=
  if utcSec <? UNIX_OFFSET_2020
  then u64 (u64 (utcSec + 4294967296) * 1000)
  else u64 (utcSec * 1000).

(** [utcToLocal(uint32_t, const TimezoneDefinition&)] *)
Definition utcToLocal_sec (utcSec : Z) (tz : TimezoneDefinition) : option Z :=
  utcToLocal (normalize32 utcSec) tz.

(** [localToUtc(uint32_t, const TimezoneDefinition&)] *)
Definition localToUtc_sec (localSec : Z) (tz : TimezoneDefinition)
    (preferDst : bool) : option Z :=
  localToUtc (normalize32 localSec) tz preferDst.

(* ================================================================== *)
(** ** The example rules of the header *)
(* ================================================================== *)

(** US Eastern: March, 2nd Sunday, 02:00; November, 1st Sunday, 02:00. *)
Definition tdEST : TimezoneDefinition := mkTz 3 2 11 1 0 2 2 (-300) (-240).

(** Australia/Sydney: October, 1st Sunday, 02:00; April, 1st Sunday, 03:00. *)
Definition tdAEST : TimezoneDefinition := mkTz 10 1 4 1 0 2 3 600 660.

(** India Standard Time: no DST. *)
Definition tdIST : TimezoneDefinition := mkTz 0 0 0 0 0 0 0 330 330.

(* ================================================================== *)
(** ** Vocabulary of the properties *)
(* ================================================================== *)

(** *** Rule validity *)

(** The rule invariant in the words of the specification: a start month 0
    forces an end month 0; a non-zero start month forces both months into
    1..12. *)
Definition rule_invariant (tz : TimezoneDefinition) : Prop :=
  (dst_start_month tz = 0 -> dst_end_month tz = 0) /\
  (dst_start_month tz <> 0 ->
   1 <= dst_start_month tz <= 12 /\ 1 <= dst_end_month tz <= 12).

(** What [setLocalTimezone] checks: no month above 12, and an end month
    whenever there is a start month. *)
Definition accepted_rule (tz : TimezoneDefinition) : Prop :=
  dst_start_month tz <= 12 /\ dst_end_month tz <= 12 /\
  (dst_start_month tz <> 0 -> dst_end_month tz <> 0).

(** A rule that observes DST and is valid: both months name a month and the
    weekday field names a weekday. *)
Record valid_dst_rule (tz : TimezoneDefinition) : Prop := mkValidDst {
  vr_start_month : 1 <= dst_start_month tz <= 12;
  vr_end_month   : 1 <= dst_end_month tz <= 12;
  vr_weekday     : 0 <= dst_weekday tz <= 6
}.

(** *** Calendar quantities *)

(** The number of days from 1970-01-01 to the first day of [Y], with the
    leap count of the source written on the calendar year. *)
Definition daysToYear (Y : Z) : Z :=
  (Y - 1970) * 365 + ((Y - 1969) / 4 - (Y - 1901) / 100 + (Y - 1601) / 400).

(** The number of days of [year] that precede the first of [month]: what
    the month loop of [dateToDays] adds up. *)
Definition daysBeforeMonth (year month : Z) : Z :=
  fold_right (fun m s => getDaysInMonth m year + s) 0 (monthsBefore month).

(** *** Periods, transitions and call sequences *)

(** The offset of the period that the miss path selects for [utcMs], given
    the two transitions of its year. *)
Definition seasonOffset (tz : TimezoneDefinition) (utcMs s e : Z) : Z :=
  if s <? e then
    if utcMs <? s then offset_min tz
    else if utcMs <? e then offset_dst_min tz
    else offset_min tz
  else
    if utcMs <? e then offset_dst_min tz
    else if utcMs <? s then offset_min tz
    else offset_dst_min tz.

(** [t] is more than one hour (3,600,000 ms) away from the instant [x]. *)
Definition farFrom (t x : Z) : Prop := 3600000 < Z.abs (t - x).

(** [x] is a DST transition instant of the rule: the start or the end
    transition that the evaluator computes for some year of its parameter
    type [uint16_t]. *)
Definition isTransition (tz : TimezoneDefinition) (x : Z) : Prop :=
  exists y, is_u16 y /\
            (computeDstStartMs y tz = Some x \/ computeDstEndMs y tz = Some x).

(** None of the 64-bit additions of an offset to [t] or to a transition
    wraps around. *)
Definition noWrap (tz : TimezoneDefinition) (t s e : Z) : Prop :=
  is_u64 (t + offset_min tz * 60000) /\
  is_u64 (t + offset_dst_min tz * 60000) /\
  is_u64 (s + offset_min tz * 60000) /\
  is_u64 (e + offset_dst_min tz * 60000).

(** A caller's successive calls of [getOffsetForUtc] on one cache: the
    offsets returned, in order, and the cache after the last call. *)
Fixpoint lookups (tz : TimezoneDefinition) (cache : DstCache) (ts : list Z)
  : option (list Z * DstCache) :=
  match ts with
  | [] => Some ([], cache)
  | t :: ts' =>
      r <- getOffsetForUtc t tz cache ;;
      rest <- lookups tz (snd r) ts' ;;
      Some (fst r :: fst rest, snd rest)
  end.

(** *** Executable checks *)

(** The integers [lo, lo + 1, ..., lo + n - 1], for checks that run over a
    finite range. *)
Definition Zrange (lo : Z) (n : nat) : list Z :=
  map (fun i => lo + Z.of_nat i) (seq 0 n).

(** Executable form of "more than one hour away from every transition of
    the years below 2502"; later years are handled by a bound. *)
Definition farFromAllb (tz : TimezoneDefinition) (t : Z) : bool :=
  forallb (fun y =>
             match computeDstStartMs y tz, computeDstEndMs y tz with
             | Some s, Some e =>
                 (3600000 <? Z.abs (t - s)) && (3600000 <? Z.abs (t - e))
             | _, _ => false
             end)
          (Zrange 0 2502).

(** *** Further rules *)

(** The southern-hemisphere rule of the specification, for any pair of
    switch hours: October, 1st Sunday, +600; April, 1st Sunday, +660. *)
Definition tdSouth (startHour endHour : Z) : TimezoneDefinition :=
  mkTz 10 1 4 1 0 startHour endHour 600 660.

(** A fixed-offset rule that still names an end month. *)
Definition tdEndOnly : TimezoneDefinition := mkTz 0 0 5 0 0 0 0 60 60.

(** The US Eastern rule with the weekday field set to 7, a value of the
    field's type [uint8_t] that names no day of the week. *)
Definition tdWeekday7 : TimezoneDefinition := mkTz 3 2 11 0 7 2 2 (-300) (-240).

(** The US Eastern rule with a DST shift of two hours. *)
Definition tdTwoHourShift : TimezoneDefinition := mkTz 3 2 11 1 0 2 2 (-300) (-180).

(** A rule whose DST ends on the last Sunday of December at 23:00. *)
Definition tdDecemberEnd : TimezoneDefinition := mkTz 3 2 12 0 0 2 23 (-300) (-240).

(** A rule whose DST, one hour behind standard time, ends on the first
    Thursday of January at 00:00 local time: its end transition of 1970
    lies one hour before the epoch. *)
Definition tdJan : TimezoneDefinition := mkTz 10 1 1 1 4 2 0 120 60.

(** *** Regular rules, coherent caches and sequences of instance calls *)

(** Both transitions of year [y] fall inside that year, the start before the
    end ([north = true], DST within the year) or the end at or before the
    start ([north = false], DST across the year boundary). *)
Definition seasonsInYear (north : bool) (tz : TimezoneDefinition) (y : Z) : Prop :=
  exists j0 j1 s e,
    dateToMs y 1 1 0 0 0 = Some j0 /\
    dateToMs (y + 1) 1 1 0 0 0 = Some j1 /\
    computeDstStartMs y tz = Some s /\
    computeDstEndMs y tz = Some e /\
    if north then j0 <= s /\ s < e /\ e < j1
    else j0 <= e /\ e <= s /\ s < j1.

(** The same for every year of 1970..2500. *)
Definition regularRule (north : bool) (tz : TimezoneDefinition) : Prop :=
  forall y, 1970 <= y <= 2500 -> seasonsInYear north tz y.

(** Executable form of [seasonsInYear]. *)
Definition seasonsInYearb (north : bool) (tz : TimezoneDefinition) (y : Z) : bool :=
  match dateToMs y 1 1 0 0 0, dateToMs (y + 1) 1 1 0 0 0,
        computeDstStartMs y tz, computeDstEndMs y tz with
  | Some j0, Some j1, Some s, Some e =>
      if north then (j0 <=? s) && (s <? e) && (e <? j1)
      else (j0 <=? e) && (e <=? s) && (s <? j1)
  | _, _, _, _ => false
  end.

(** Executable form of [regularRule]. *)
Definition regularRuleb (north : bool) (tz : TimezoneDefinition) : bool :=
  forallb (seasonsInYearb north tz) (Zrange 1970 531).

(** Every timestamp that hits the cache gets from it the offset that a
    lookup from an empty cache computes. *)
Definition cacheCoherent (tz : TimezoneDefinition) (c : DstCache) : Prop :=
  forall t, cacheHit t c = true ->
            option_map fst (getOffsetForUtc t tz emptyCache) = Some (current_offset c).

(** A caller's successive calls of [utcToLocal(uint64_t)] on one instance:
    the local times returned, in order, and the instance after the last
    call. *)
Fixpoint utcToLocalAll (self : TimezoneTranslator) (ts : list Z)
  : option (list Z * TimezoneTranslator) :=
  match ts with
  | [] => Some ([], self)
  | t :: ts' =>
      r <- utcToLocal_self self t ;;
      rest <- utcToLocalAll (snd r) ts' ;;
      Some (fst r :: fst rest, snd rest)
  end.

(** The DST shift of a rule in milliseconds, sign dropped. *)
Definition shiftMs (tz : TimezoneDefinition) : Z :=
  Z.abs (offset_dst_min tz * 60000 - offset_min tz * 60000).

(* ================================================================== *)
(** * Properties: Machine integers and finite checks *)
(* ================================================================== *)

(** ** Machine integers *)

Lemma u8_small (x : Z) : 0 <= x < 256 -> u8 x = x.
Proof. intros H; unfold u8; apply Z.mod_small; lia. Qed.

Lemma u16_small (x : Z) : 0 <= x < 65536 -> u16 x = x.
Proof. intros H; unfold u16; apply Z.mod_small; lia. Qed.

Lemma u32_small (x : Z) : 0 <= x < 4294967296 -> u32 x = x.
Proof. intros H; unfold u32; apply Z.mod_small; lia. Qed.

Lemma u64_small (x : Z) : 0 <= x < 18446744073709551616 -> u64 x = x.
Proof. intros H; unfold u64; apply Z.mod_small; lia. Qed.

Lemma u64_range (x : Z) : 0 <= u64 x < 18446744073709551616.
Proof. unfold u64; apply Z.mod_pos_bound; lia. Qed.

Lemma u32_range (x : Z) : 0 <= u32 x < 4294967296.
Proof. unfold u32; apply Z.mod_pos_bound; lia. Qed.

Lemma u32_add_l (a b : Z) : u32 (u32 a + b) = u32 (a + b).
Proof. unfold u32; apply Zplus_mod_idemp_l. Qed.

(** Adding and then subtracting the same amount in 64-bit arithmetic. *)
Lemma u64_add_sub (t k : Z) : 0 <= t < 2 ^ 64 -> u64 (u64 (t + k) - k) = t.
Proof.
  intros H; unfold u64.
  rewrite Zminus_mod_idemp_l.
  replace (t + k - k) with t by ring.
  apply Z.mod_small; exact H.
Qed.

Lemma u64_sub_add (t k : Z) : 0 <= t < 2 ^ 64 -> u64 (u64 (t - k) + k) = t.
Proof.
  intros H; unfold u64.
  rewrite Zplus_mod_idemp_l.
  replace (t - k + k) with t by ring.
  apply Z.mod_small; exact H.
Qed.

(** ** Checks over finite ranges *)

Lemma Zrange_forallb (P : Z -> bool) (lo : Z) (n : nat) :
  forallb P (Zrange lo n) = true ->
  forall x, lo <= x < lo + Z.of_nat n -> P x = true.
Proof.
  intros H x Hx.
  unfold Zrange in H.
  rewrite forallb_forall in H.
  apply H.
  apply in_map_iff.
  exists (Z.to_nat (x - lo)); split; [lia |].
  apply in_seq; lia.
Qed.

(* ================================================================== *)
(** * Properties: Calendar arithmetic *)
(* ================================================================== *)

(** ** Month lengths and the month loop of [dateToDays] *)

Ltac month_cases m :=
  let H := fresh "Hm" in
  assert (H : m = 1 \/ m = 2 \/ m = 3 \/ m = 4 \/ m = 5 \/ m = 6 \/
              m = 7 \/ m = 8 \/ m = 9 \/ m = 10 \/ m = 11 \/ m = 12) by lia;
  destruct H as [H | [H | [H | [H | [H | [H | [H | [H | [H | [H | [H | H]]]]]]]]]]];
  subst m.

Lemma isLeapYear_cases (year : Z) :
  (isLeapYear year = 0 /\ c_true (isLeapYear year) = false) \/
  (isLeapYear year = 1 /\ c_true (isLeapYear year) = true).
Proof.
  unfold isLeapYear.
  destruct (year mod 400 =? 0); [right; split; reflexivity |].
  destruct (year mod 100 =? 0); [left; split; reflexivity |].
  destruct (year mod 4 =? 0); [right | left]; split; reflexivity.
Qed.

Lemma getDaysInMonth_range (month year : Z) :
  1 <= month <= 12 -> 28 <= getDaysInMonth month year <= 31.
Proof.
  intros H; unfold getDaysInMonth.
  destruct (isLeapYear_cases year) as [[_ E] | [_ E]]; rewrite E;
    month_cases month; cbv; split; discriminate.
Qed.

Lemma dateToDays_step_eq (year acc m : Z) :
  1 <= m <= 12 ->
  dateToDays_step year (Some acc) m = Some (u32 (acc + getDaysInMonth m year)).
Proof.
  intros H; unfold dateToDays_step, getDaysInMonth.
  destruct (isLeapYear_cases year) as [[_ E] | [_ E]]; rewrite E;
    month_cases m;
    repeat match goal with
      | |- context [MONTH_DAYS_at ?i] =>
          let v := eval vm_compute in (MONTH_DAYS_at i) in
          change (MONTH_DAYS_at i) with v
      | |- context [Z.eqb ?a ?b] =>
          let v := eval vm_compute in (Z.eqb a b) in change (Z.eqb a b) with v
      | |- context [Z.ltb ?a ?b] =>
          let v := eval vm_compute in (Z.ltb a b) in change (Z.ltb a b) with v
      | |- context [Z.gtb ?a ?b] =>
          let v := eval vm_compute in (Z.gtb a b) in change (Z.gtb a b) with v
      end;
    cbn [obind orb andb]; try reflexivity.
  unfold u32; rewrite Zplus_mod_idemp_l; f_equal; f_equal; ring.
Qed.

Lemma monthsBefore_range (month m : Z) :
  month <= 13 -> In m (monthsBefore month) -> 1 <= m <= 12.
Proof.
  intros Hmonth Hin; unfold monthsBefore in Hin.
  apply in_map_iff in Hin as [k [<- Hk]].
  apply in_seq in Hk; lia.
Qed.

Lemma fold_dateToDays_step (year : Z) (months : list Z) :
  (forall m, In m months -> 1 <= m <= 12) ->
  forall acc, 0 <= acc < 4294967296 ->
  fold_left (dateToDays_step year) months (Some acc)
  = Some (u32 (acc + fold_right (fun m s => getDaysInMonth m year + s) 0 months)).
Proof.
  induction months as [| m months IH]; intros Hall acc Hacc.
  - cbn [fold_left fold_right]. rewrite Z.add_0_r, u32_small by assumption. reflexivity.
  - cbn [fold_left fold_right].
    rewrite dateToDays_step_eq by (apply Hall; left; reflexivity).
    rewrite IH; [| intros k Hk; apply Hall; right; exact Hk | apply u32_range].
    unfold u32; rewrite Zplus_mod_idemp_l; f_equal; f_equal; ring.
Qed.

(** [dateToDays] in closed form, for every month up to 13 (from 14 on the
    loop reads past [MONTH_DAYS]). *)
Lemma dateToDays_eq (year month day : Z) :
  month <= 13 ->
  dateToDays year month day
  = Some (u32 (u32 (year - 1970) * 365 + leapsSince1970 (u32 (year - 1970))
               + daysBeforeMonth year month + (day - 1))).
Proof.
  intros Hmonth; unfold dateToDays.
  rewrite fold_dateToDays_step;
    [| intros m; apply monthsBefore_range; exact Hmonth | apply u32_range].
  cbn [obind]; fold (daysBeforeMonth year month).
  rewrite u32_add_l, <- Z.add_assoc, u32_add_l, Z.add_assoc; reflexivity.
Qed.

Lemma dateToMs_defined (year month day h mi s : Z) :
  month <= 13 -> exists t, dateToMs year month day h mi s = Some t /\ 0 <= t < 2 ^ 64.
Proof.
  intros Hmonth; unfold dateToMs; rewrite dateToDays_eq by exact Hmonth.
  cbn [obind]; eexists; split; [reflexivity | apply u64_range].
Qed.

(** ** Year boundaries and the binary search of [yearFromDays] *)

(** In the range of the search no 32-bit operation of the year-start
    expression wraps. *)
Lemma yearStart_eq (Y : Z) :
  1970 <= Y <= 65536 ->
  u32 (u32 (Y - 1970) * 365 + leapsSince1970 (u32 (Y - 1970))) = daysToYear Y.
Proof.
  intros HY. unfold leapsSince1970, daysToYear.
  rewrite (u32_small (Y - 1970)) by lia.
  rewrite (u32_small (Y - 1970 + 1)), (u32_small (Y - 1970 + 69)),
          (u32_small (Y - 1970 + 369)) by lia.
  replace (Y - 1970 + 1) with (Y - 1969) by ring.
  replace (Y - 1970 + 69) with (Y - 1901) by ring.
  replace (Y - 1970 + 369) with (Y - 1601) by ring.
  assert (0 <= (Y - 1969) / 4 - (Y - 1901) / 100 + (Y - 1601) / 400 < 20000)
    by (Z.div_mod_to_equations; lia).
  rewrite (u32_small (_ / 4 - _ / 100 + _ / 400)) by lia.
  apply u32_small; lia.
Qed.

Lemma daysToYear_succ (Y : Z) :
  daysToYear (Y + 1) = daysToYear Y + 365 + isLeapYear Y.
Proof.
  unfold daysToYear, isLeapYear.
  destruct (Z.eqb_spec (Y mod 400) 0); [Z.div_mod_to_equations; lia |].
  destruct (Z.eqb_spec (Y mod 100) 0); [Z.div_mod_to_equations; lia |].
  destruct (Z.eqb_spec (Y mod 4) 0); Z.div_mod_to_equations; lia.
Qed.

Lemma daysToYear_mono (a b : Z) : a <= b -> daysToYear a <= daysToYear b.
Proof. unfold daysToYear. intros H. Z.div_mod_to_equations. lia. Qed.

Lemma daysToYear_bounds (Y : Z) :
  1970 <= Y <= 2502 -> 0 <= daysToYear Y <= 200000.
Proof. unfold daysToYear. intros H. Z.div_mod_to_equations. lia. Qed.

Lemma daysToYear_bounds_u16 (Y : Z) :
  1970 <= Y <= 65536 -> 0 <= daysToYear Y <= 24000000.
Proof. unfold daysToYear. intros H. Z.div_mod_to_equations. lia. Qed.

(** The loop halves the interval [lo, hi) at every iteration, keeping on
    its left the years that start at or before [days] and on its right
    those that start after. *)
Lemma yearFromDays_loop_spec (days : Z) (fuel : nat) :
  forall lo hi,
  1971 <= lo <= hi -> hi <= 2501 -> hi - lo < 2 ^ Z.of_nat fuel ->
  exists Y, yearFromDays_loop fuel lo hi days = Some Y /\
            lo <= Y + 1 <= hi /\
            (Y + 1 = lo \/ daysToYear Y <= days) /\
            (Y + 1 = hi \/ days < daysToYear (Y + 1)).
Proof.
  induction fuel as [| fuel IH]; intros lo hi Hlo Hhi Hsize.
  - assert (lo = hi) by (change (2 ^ Z.of_nat 0) with 1 in Hsize; lia). subst hi.
    cbn [yearFromDays_loop]. rewrite Z.ltb_irrefl, u16_small by lia.
    exists (lo - 1). repeat split; try lia.
  - cbn [yearFromDays_loop].
    destruct (Z.ltb_spec lo hi) as [Hlt | Hge].
    + rewrite Nat2Z.inj_succ, Z.pow_succ_r in Hsize by lia.
      assert (Hmid : lo <= lo + (hi - lo) / 2 < hi) by (Z.div_mod_to_equations; lia).
      rewrite (u16_small (lo + (hi - lo) / 2)) by lia.
      set (mid := lo + (hi - lo) / 2) in *.
      rewrite yearStart_eq by lia.
      destruct (Z.gtb_spec (daysToYear mid) days) as [Hgt | Hle].
      * destruct (IH lo mid ltac:(lia) ltac:(lia)) as [Y [E [HY [HL HR]]]].
        { subst mid. Z.div_mod_to_equations. lia. }
        exists Y. split; [exact E |]. split; [lia |]. split; [exact HL |].
        destruct HR as [-> | HR]; right; assumption.
      * rewrite (u16_small (mid + 1)) by lia.
        destruct (IH (mid + 1) hi ltac:(lia) ltac:(lia)) as [Y [E [HY [HL HR]]]].
        { subst mid. Z.div_mod_to_equations. lia. }
        exists Y. split; [exact E |]. split; [lia |]. split; [| exact HR].
        destruct HL as [HL | HL]; right;
          [replace Y with mid by lia; exact Hle | exact HL].
    + assert (lo = hi) by lia. subst hi.
      rewrite u16_small by lia.
      exists (lo - 1). repeat split; try lia.
Qed.

(** [yearFromDays] always returns, and returns a year of 1970..2500. *)
Lemma yearFromDays_total (days : Z) :
  exists Y, yearFromDays days = Some Y /\ 1970 <= Y <= 2500 /\
            (Y = 1970 \/ daysToYear Y <= days) /\
            (Y = 2500 \/ days < daysToYear (Y + 1)).
Proof.
  destruct (yearFromDays_loop_spec days 10 1971 2501) as [Y [E [HY [HL HR]]]];
    try lia.
  exists Y. split; [exact E |]. split; [lia |].
  split; [destruct HL; [left; lia | right; assumption]
         | destruct HR; [left; lia | right; assumption]].
Qed.

(** It returns the year whose days contain [days]. *)
Lemma yearFromDays_correct (days y : Z) :
  1970 <= y <= 2500 ->
  daysToYear y <= days < daysToYear (y + 1) ->
  yearFromDays days = Some y.
Proof.
  intros Hy [Hlo Hhi].
  destruct (yearFromDays_total days) as [Y [E [HY [HL HR]]]].
  rewrite E; f_equal.
  assert (C : Y < y \/ Y = y \/ y < Y) by lia.
  destruct C as [C | [C | C]]; [| exact C |].
  - destruct HR as [HR | HR]; [lia |].
    pose proof (daysToYear_mono (Y + 1) y ltac:(lia)). lia.
  - destruct HL as [HL | HL]; [lia |].
    pose proof (daysToYear_mono (y + 1) Y ltac:(lia)). lia.
Qed.

(** The year of an instant that lies between two consecutive January
    1sts. *)
Lemma yearFromMs_of_range (t Y : Z) :
  1970 <= Y <= 2500 ->
  daysToYear Y * 86400000 <= t < daysToYear (Y + 1) * 86400000 ->
  yearFromMs t = Some Y.
Proof.
  intros HY Ht.
  pose proof (daysToYear_bounds Y ltac:(lia)).
  pose proof (daysToYear_bounds (Y + 1) ltac:(lia)).
  assert (Hd : daysToYear Y <= t / 86400000 < daysToYear (Y + 1))
    by (Z.div_mod_to_equations; lia).
  unfold yearFromMs. rewrite u32_small by lia.
  apply yearFromDays_correct; assumption.
Qed.

(** ** Days before a month *)

Lemma sum_days_app (year : Z) (l1 l2 : list Z) :
  fold_right (fun m s => getDaysInMonth m year + s) 0 (l1 ++ l2)
  = fold_right (fun m s => getDaysInMonth m year + s) 0 l1
    + fold_right (fun m s => getDaysInMonth m year + s) 0 l2.
Proof.
  induction l1 as [| a l1 IH]; cbn [app fold_right]; [reflexivity |].
  rewrite IH; ring.
Qed.

Lemma daysBeforeMonth_1 (year : Z) : daysBeforeMonth year 1 = 0.
Proof. reflexivity. Qed.

Lemma daysBeforeMonth_succ (year k : Z) :
  1 <= k -> daysBeforeMonth year (k + 1) = daysBeforeMonth year k + getDaysInMonth k year.
Proof.
  intros Hk. unfold daysBeforeMonth, monthsBefore.
  replace (Z.to_nat (k + 1 - 1)) with (S (Z.to_nat (k - 1))) by lia.
  rewrite seq_S, map_app, sum_days_app. cbn [map fold_right].
  replace (Z.of_nat (1 + Z.to_nat (k - 1))) with k by lia.
  ring.
Qed.

Lemma daysBeforeMonth_le (year : Z) (n : nat) :
  forall k, 1 <= k -> k + Z.of_nat n <= 13 ->
  daysBeforeMonth year k <= daysBeforeMonth year (k + Z.of_nat n).
Proof.
  induction n as [| n IH]; intros k Hk Hm.
  - replace (k + Z.of_nat 0) with k by lia. lia.
  - replace (k + Z.of_nat (S n)) with (k + Z.of_nat n + 1) by lia.
    rewrite daysBeforeMonth_succ by lia.
    pose proof (getDaysInMonth_range (k + Z.of_nat n) year ltac:(lia)).
    specialize (IH k Hk ltac:(lia)). lia.
Qed.

Lemma daysBeforeMonth_13 (year : Z) :
  daysBeforeMonth year 13 = 365 + isLeapYear year.
Proof.
  unfold daysBeforeMonth.
  change (monthsBefore 13) with [1; 2; 3; 4; 5; 6; 7; 8; 9; 10; 11; 12].
  unfold getDaysInMonth, fold_right.
  destruct (isLeapYear_cases year) as [[-> E] | [-> E]]; rewrite E; reflexivity.
Qed.

(** From the first of a month to the first of the next stays inside the
    year. *)
Lemma daysBeforeMonth_bounds (year m : Z) :
  1 <= m <= 12 ->
  0 <= daysBeforeMonth year m /\
  daysBeforeMonth year m + getDaysInMonth m year <= 365 + isLeapYear year.
Proof.
  intros Hm.
  pose proof (daysBeforeMonth_le year (Z.to_nat (m - 1)) 1 ltac:(lia) ltac:(lia)) as H1.
  pose proof (daysBeforeMonth_le year (Z.to_nat (12 - m)) (m + 1) ltac:(lia) ltac:(lia)) as H2.
  replace (1 + Z.of_nat (Z.to_nat (m - 1))) with m in H1 by lia.
  replace (m + 1 + Z.of_nat (Z.to_nat (12 - m))) with 13 in H2 by lia.
  rewrite daysBeforeMonth_1 in H1.
  rewrite daysBeforeMonth_succ, daysBeforeMonth_13 in H2 by lia.
  lia.
Qed.

(** ** The month loop of [toTimeStruct] *)

(** For a month of 1..12 the two tests of the loop amount to comparing
    with the length of the month. *)
Lemma toTimeStruct_loop_unfold (fuel : nat) (year k dr : Z) :
  1 <= k <= 12 ->
  toTimeStruct_loop fuel year k dr =
  if dr >=? getDaysInMonth k year then
    match fuel with
    | O => None
    | S fuel' =>
        toTimeStruct_loop fuel' year (u8 (k + 1)) (u32 (dr - getDaysInMonth k year))
    end
  else Some (k, dr).
Proof.
  intros Hk.
  destruct fuel as [| fuel]; cbn [toTimeStruct_loop]; unfold getDaysInMonth;
    destruct (isLeapYear_cases year) as [[_ E] | [_ E]]; rewrite E;
    month_cases k;
    repeat match goal with
      | |- context [MONTH_DAYS_at ?i] =>
          let v := eval vm_compute in (MONTH_DAYS_at i) in
          change (MONTH_DAYS_at i) with v
      | |- context [Z.eqb ?a ?b] =>
          let v := eval vm_compute in (Z.eqb a b) in change (Z.eqb a b) with v
      | |- context [Z.ltb ?a ?b] =>
          let v := eval vm_compute in (Z.ltb a b) in change (Z.ltb a b) with v
      | |- context [Z.gtb ?a ?b] =>
          let v := eval vm_compute in (Z.gtb a b) in change (Z.gtb a b) with v
      end;
    cbn [obind orb andb];
    try match goal with
      | |- context [dr >=? ?c] => destruct (Z.geb_spec dr c); try reflexivity
      end;
    destruct (Z.geb_spec dr 29); try reflexivity; lia.
Qed.

(** Started at month [k] with the days that remain up to day [r + 1] of
    month [m], the loop stops at month [m] with [r] days remaining. *)
Lemma toTimeStruct_loop_correct (year m r : Z) (n : nat) :
  m <= 12 -> 0 <= r < getDaysInMonth m year ->
  forall k fuel, 1 <= k -> k + Z.of_nat n = m -> (n <= fuel)%nat ->
  toTimeStruct_loop fuel year k (daysBeforeMonth year m - daysBeforeMonth year k + r)
  = Some (m, r).
Proof.
  intros Hm Hr; induction n as [| n IH]; intros k fuel Hk Hkm Hfuel.
  - assert (k = m) by lia; subst k.
    rewrite toTimeStruct_loop_unfold by lia.
    replace (daysBeforeMonth year m - daysBeforeMonth year m + r) with r by ring.
    destruct (Z.geb_spec r (getDaysInMonth m year)); [lia | reflexivity].
  - rewrite toTimeStruct_loop_unfold by lia.
    pose proof (daysBeforeMonth_le year n (k + 1) ltac:(lia) ltac:(lia)) as Hle.
    replace (k + 1 + Z.of_nat n) with m in Hle by lia.
    rewrite daysBeforeMonth_succ in Hle by lia.
    pose proof (daysBeforeMonth_bounds year m ltac:(lia)) as [_ Hup].
    pose proof (daysBeforeMonth_bounds year k ltac:(lia)) as [Hk0 _].
    pose proof (getDaysInMonth_range k year ltac:(lia)) as Hdk.
    destruct (isLeapYear_cases year) as [[Hl _] | [Hl _]]; rewrite Hl in Hup;
    (destruct (Z.geb_spec (daysBeforeMonth year m - daysBeforeMonth year k + r)
                         (getDaysInMonth k year)); [| lia];
     destruct fuel as [| fuel]; [lia |];
     rewrite u8_small, u32_small by lia;
     replace (daysBeforeMonth year m - daysBeforeMonth year k + r
              - getDaysInMonth k year)
       with (daysBeforeMonth year m - daysBeforeMonth year (k + 1) + r)
       by (rewrite daysBeforeMonth_succ by lia; ring);
     apply IH; lia).
Qed.

(** ** Composition and decomposition of a timestamp *)

Lemma daysBeforeMonth_range (year m : Z) :
  1 <= m <= 13 -> 0 <= daysBeforeMonth year m <= 366.
Proof.
  intros Hm.
  pose proof (daysBeforeMonth_le year (Z.to_nat (m - 1)) 1 ltac:(lia) ltac:(lia)) as H1.
  pose proof (daysBeforeMonth_le year (Z.to_nat (13 - m)) m ltac:(lia) ltac:(lia)) as H2.
  replace (1 + Z.of_nat (Z.to_nat (m - 1))) with m in H1 by lia.
  replace (m + Z.of_nat (Z.to_nat (13 - m))) with 13 in H2 by lia.
  rewrite daysBeforeMonth_1 in H1. rewrite daysBeforeMonth_13 in H2.
  destruct (isLeapYear_cases year) as [[Hl _] | [Hl _]]; rewrite Hl in H2; lia.
Qed.

(** [dateToDays] from 1970 on: no 32-bit operation wraps. *)
Lemma dateToDays_in_range (y m d : Z) :
  1970 <= y <= 65535 -> 1 <= m <= 13 -> 0 <= d <= 256 -> 1 <= d \/ 1971 <= y ->
  dateToDays y m d = Some (daysToYear y + daysBeforeMonth y m + (d - 1)).
Proof.
  intros Hy Hm Hd Hd0.
  rewrite dateToDays_eq by lia.
  rewrite <- Z.add_assoc, <- u32_add_l, yearStart_eq, Z.add_assoc by lia.
  pose proof (daysToYear_bounds_u16 y ltac:(lia)).
  pose proof (daysBeforeMonth_range y m Hm).
  pose proof (daysToYear_mono 1971 y).
  change (daysToYear 1971) with 365 in *.
  rewrite u32_small by lia. reflexivity.
Qed.

(** [dateToMs] from 1970 on: no 32-bit or 64-bit operation wraps. *)
Lemma dateToMs_in_range (y m d h mi s : Z) :
  1970 <= y <= 65535 -> 1 <= m <= 13 -> 0 <= d <= 256 -> 1 <= d \/ 1971 <= y ->
  0 <= h <= 255 -> 0 <= mi <= 255 -> 0 <= s <= 255 ->
  dateToMs y m d h mi s
  = Some ((daysToYear y + daysBeforeMonth y m + (d - 1)) * 86400000
          + h * 3600000 + mi * 60000 + s * 1000).
Proof.
  intros Hy Hm Hd Hd0 Hh Hmi Hs. unfold dateToMs.
  rewrite dateToDays_in_range by assumption. cbn [obind].
  pose proof (daysToYear_bounds_u16 y ltac:(lia)).
  pose proof (daysBeforeMonth_range y m Hm).
  pose proof (daysToYear_mono 1971 y).
  change (daysToYear 1971) with 365 in *.
  rewrite (u32_small (h * 3600000)), (u32_small (mi * 60000)),
          (u32_small (s * 1000)) by lia.
  rewrite (u64_small (_ * 86400000)) by lia.
  rewrite (u64_small (_ * 86400000 + _)) by lia.
  rewrite (u64_small (_ * 86400000 + _ + _)) by lia.
  rewrite u64_small by lia. reflexivity.
Qed.

(** [toTimeStruct] on day [D] of the epoch, [R] milliseconds into the day,
    when [D] is day [r + 1] of month [m] of year [y]. *)
Lemma toTimeStruct_of_parts (D R y m r : Z) :
  0 <= R < 86400000 ->
  1970 <= y <= 2500 -> 1 <= m <= 12 -> 0 <= r < getDaysInMonth m y ->
  D = daysToYear y + daysBeforeMonth y m + r ->
  toTimeStruct (D * 86400000 + R)
  = Some (mkTime y m (r + 1) (R / 1000 / 3600) (R / 1000 / 60 mod 60)
                 (R / 1000 mod 60) (R mod 1000) ((D + 4) mod 7)).
Proof.
  intros HR Hy Hm Hr HD.
  pose proof (daysToYear_bounds y ltac:(lia)) as Hdy.
  pose proof (daysBeforeMonth_bounds y m Hm) as [Hb0 Hb1].
  pose proof (getDaysInMonth_range m y Hm) as Hdim.
  assert (Hleap : isLeapYear y = 0 \/ isLeapYear y = 1)
    by (destruct (isLeapYear_cases y) as [[E _] | [E _]]; auto).
  assert (HDr : 0 <= D < 400000) by lia.
  assert (Hdiv : (D * 86400000 + R) / 86400000 = D)
    by (symmetry; apply Z.div_unique with (r := R); lia).
  assert (Hyear : yearFromDays D = Some y).
  { apply yearFromDays_correct; [exact Hy |].
    rewrite daysToYear_succ. lia. }
  unfold toTimeStruct.
  rewrite Hdiv, (u32_small D) by lia.
  rewrite Hyear. cbn [obind].
  rewrite yearStart_eq by lia.
  replace (D * 86400000 + R - D * 86400000) with R by ring.
  rewrite (u64_small R), (u32_small R) by lia.
  replace (D - daysToYear y) with (daysBeforeMonth y m - daysBeforeMonth y 1 + r)
    by (rewrite daysBeforeMonth_1; lia).
  rewrite (u32_small (_ - _ + r)) by (rewrite daysBeforeMonth_1; lia).
  rewrite (toTimeStruct_loop_correct y m r (Z.to_nat (m - 1))) by lia.
  cbn [obind].
  assert (Hw : getWeekdayFromDays D = (D + 4) mod 7).
  { unfold getWeekdayFromDays. rewrite (u32_small (D + 4)) by lia.
    pose proof (Z.mod_pos_bound (D + 4) 7 ltac:(lia)). apply u8_small; lia. }
  rewrite Hw.
  assert (H1 : 0 <= R mod 1000 < 1000) by (apply Z.mod_pos_bound; lia).
  assert (H2 : 0 <= R / 1000 < 86400) by (Z.div_mod_to_equations; lia).
  assert (H3 : 0 <= R / 1000 mod 60 < 60) by (apply Z.mod_pos_bound; lia).
  assert (H4 : 0 <= R / 1000 / 60 mod 60 < 60) by (apply Z.mod_pos_bound; lia).
  assert (H5 : 0 <= R / 1000 / 3600 < 24) by (Z.div_mod_to_equations; lia).
  rewrite (u16_small (R mod 1000)), (u8_small (R / 1000 mod 60)),
          (u8_small (R / 1000 / 60 mod 60)), (u8_small (R / 1000 / 3600)),
          (u8_small (r + 1)) by lia.
  reflexivity.
Qed.

(** C10. For every calendar date of the years 1970..2500 and every time of
    day, decomposing the composed timestamp gives back the same year, month,
    day, hour, minute and second, with [ms = 0] and the weekday
    [(daysSinceEpoch + 4) mod 7] of the date. *)
Theorem toTimeStruct_dateToMs_roundtrip (y m d h mi s : Z) :
  1970 <= y <= 2500 ->
  1 <= m <= 12 ->
  1 <= d <= getDaysInMonth m y ->
  0 <= h <= 23 ->
  0 <= mi <= 59 ->
  0 <= s <= 59 ->
  exists t daysSinceEpoch,
    dateToMs y m d h mi s = Some t /\
    dateToDays y m d = Some daysSinceEpoch /\
    toTimeStruct t = Some (mkTime y m d h mi s 0 ((daysSinceEpoch + 4) mod 7)).
Proof.
  intros Hy Hm Hd Hh Hmi Hs.
  pose proof (getDaysInMonth_range m y Hm) as Hdim.
  exists ((daysToYear y + daysBeforeMonth y m + (d - 1)) * 86400000
          + h * 3600000 + mi * 60000 + s * 1000),
         (daysToYear y + daysBeforeMonth y m + (d - 1)).
  split; [apply dateToMs_in_range; lia |].
  split; [apply dateToDays_in_range; lia |].
  set (D := daysToYear y + daysBeforeMonth y m + (d - 1)).
  set (R := h * 3600000 + mi * 60000 + s * 1000).
  replace (D * 86400000 + h * 3600000 + mi * 60000 + s * 1000)
    with (D * 86400000 + R) by (subst R; ring).
  rewrite (toTimeStruct_of_parts D R y m (d - 1)) by lia.
  assert (E1 : R / 1000 = h * 3600 + mi * 60 + s)
    by (subst R; Z.div_mod_to_equations; lia).
  assert (E0 : R mod 1000 = 0) by (subst R; Z.div_mod_to_equations; lia).
  rewrite E0, E1.
  assert (E2 : (h * 3600 + mi * 60 + s) mod 60 = s)
    by (Z.div_mod_to_equations; lia).
  assert (E3 : (h * 3600 + mi * 60 + s) / 60 = h * 60 + mi)
    by (Z.div_mod_to_equations; lia).
  assert (E4 : (h * 60 + mi) mod 60 = mi) by (Z.div_mod_to_equations; lia).
  assert (E5 : (h * 3600 + mi * 60 + s) / 3600 = h)
    by (Z.div_mod_to_equations; lia).
  rewrite E2, E3, E4, E5.
  replace (d - 1 + 1) with d by ring. reflexivity.
Qed.

Lemma toTimeStruct_dateToMs_roundtrip_witness :
  exists t daysSinceEpoch,
    dateToMs 2024 2 29 23 59 59 = Some t /\
    dateToDays 2024 2 29 = Some daysSinceEpoch /\
    toTimeStruct t = Some (mkTime 2024 2 29 23 59 59 0 ((daysSinceEpoch + 4) mod 7)).
Proof.
  apply (toTimeStruct_dateToMs_roundtrip 2024 2 29 23 59 59);
    vm_compute; split; congruence.
Defined.

(* ================================================================== *)
(** * Properties: DST rule evaluator *)
(* ================================================================== *)

(** ** The weekday scans of [getDstSwitchDay] *)

Lemma getWeekdayFromDays_range (d : Z) : 0 <= getWeekdayFromDays d <= 6.
Proof.
  unfold getWeekdayFromDays.
  pose proof (Z.mod_pos_bound (u32 (d + 4)) 7 ltac:(lia)).
  rewrite u8_small; lia.
Qed.

Lemma forward_weekday (wd : Z) :
  0 <= wd <= 6 -> u8 (Z.rem (wd + 1) 7) = (wd + 1) mod 7.
Proof.
  intros H. rewrite Z.rem_mod_nonneg by lia.
  pose proof (Z.mod_pos_bound (wd + 1) 7 ltac:(lia)).
  apply u8_small; lia.
Qed.

Lemma backward_weekday (wd : Z) :
  0 <= wd <= 6 -> (if wd =? 0 then 6 else u8 (wd - 1)) = (wd + 6) mod 7.
Proof.
  intros H. destruct (Z.eqb_spec wd 0) as [-> | Hnz]; [reflexivity |].
  rewrite u8_small by lia.
  apply Z.mod_unique with (q := 1); lia.
Qed.

Section Scans.

(** The weekday that a scan looks for, [tz.dst_weekday]. *)
Variable target : Z.

(** With both weekdays in 0..6 the forward scan exits after
    [(target - wd) mod 7] iterations. *)
Lemma scanForward_exits (n : nat) :
  0 <= target <= 6 ->
  forall wd sd, 0 <= wd <= 6 -> (target - wd) mod 7 <= Z.of_nat n ->
  exists d, scanForward n wd sd target = Some d.
Proof.
  intros Ht; induction n as [| n IH]; intros wd sd Hwd Hdist;
    cbn [scanForward]; destruct (Z.eqb_spec wd target) as [-> | Hne]; cbn [negb];
    try (eexists; reflexivity).
  - exfalso. apply Hne. revert Hdist. Z.div_mod_to_equations. lia.
  - rewrite forward_weekday by exact Hwd.
    apply IH.
    + pose proof (Z.mod_pos_bound (wd + 1) 7 ltac:(lia)); lia.
    + revert Hdist. Z.div_mod_to_equations. lia.
Qed.

Lemma scanBackward_exits (n : nat) :
  0 <= target <= 6 ->
  forall wd sd, 0 <= wd <= 6 -> (wd - target) mod 7 <= Z.of_nat n ->
  exists d, scanBackward n wd sd target = Some d.
Proof.
  intros Ht; induction n as [| n IH]; intros wd sd Hwd Hdist;
    cbn [scanBackward]; destruct (Z.eqb_spec wd target) as [-> | Hne]; cbn [negb];
    try (eexists; reflexivity).
  - exfalso. apply Hne. revert Hdist. Z.div_mod_to_equations. lia.
  - rewrite backward_weekday by exact Hwd.
    apply IH.
    + pose proof (Z.mod_pos_bound (wd + 6) 7 ltac:(lia)); lia.
    + revert Hdist. Z.div_mod_to_equations. lia.
Qed.

(** A target that is no weekday is never met by the forward scan. *)
Lemma scanForward_diverges (n : nat) :
  ~ 0 <= target <= 6 ->
  forall wd sd, 0 <= wd <= 6 -> scanForward n wd sd target = None.
Proof.
  intros Ht; induction n as [| n IH]; intros wd sd Hwd;
    cbn [scanForward]; destruct (Z.eqb_spec wd target) as [-> | Hne]; cbn [negb];
    try contradiction; try reflexivity.
  rewrite forward_weekday by exact Hwd.
  apply IH. pose proof (Z.mod_pos_bound (wd + 1) 7 ltac:(lia)); lia.
Qed.

(** The backward scan counts down, so it meets any target at or below its
    starting point. *)
Lemma scanBackward_descends (n : nat) :
  0 <= target ->
  forall wd sd, target <= wd <= 255 -> wd - target <= Z.of_nat n ->
  exists d, scanBackward n wd sd target = Some d.
Proof.
  intros Ht; induction n as [| n IH]; intros wd sd Hwd Hdist;
    cbn [scanBackward]; destruct (Z.eqb_spec wd target) as [-> | Hne]; cbn [negb];
    try (eexists; reflexivity).
  - lia.
  - destruct (Z.eqb_spec wd 0) as [-> | Hnz]; [lia |].
    rewrite u8_small by lia. apply IH; lia.
Qed.

(** It never meets a negative target, nor one above both 6 and its
    starting point. *)
Lemma scanBackward_diverges (n : nat) :
  forall wd sd, 0 <= wd <= 255 -> target < 0 \/ (wd < target /\ 6 < target) ->
  scanBackward n wd sd target = None.
Proof.
  induction n as [| n IH]; intros wd sd Hwd Hout;
    cbn [scanBackward]; destruct (Z.eqb_spec wd target) as [-> | Hne]; cbn [negb];
    try lia; try reflexivity.
  destruct (Z.eqb_spec wd 0) as [-> | Hnz]; [apply IH; lia |].
  rewrite u8_small by lia. apply IH; lia.
Qed.

Lemma scanForward_mono (n : nat) :
  forall m wd sd d, (n <= m)%nat ->
  scanForward n wd sd target = Some d -> scanForward m wd sd target = Some d.
Proof.
  induction n as [| n IH]; intros [| m] wd sd d Hle;
    cbn [scanForward]; destruct (negb (wd =? target));
    try discriminate; try (intros; assumption); try lia.
  apply IH; lia.
Qed.

Lemma scanBackward_mono (n : nat) :
  forall m wd sd d, (n <= m)%nat ->
  scanBackward n wd sd target = Some d -> scanBackward m wd sd target = Some d.
Proof.
  induction n as [| n IH]; intros [| m] wd sd d Hle;
    cbn [scanBackward]; destruct (negb (wd =? target));
    try discriminate; try (intros; assumption); try lia.
  apply IH; lia.
Qed.

(** A scan that exits with some amount of fuel exits with [SCAN_FUEL]. *)
Lemma scanForward_adequate (wd sd d : Z) (n : nat) :
  0 <= wd <= 6 ->
  scanForward n wd sd target = Some d -> scanForward SCAN_FUEL wd sd target = Some d.
Proof.
  intros Hwd Hn.
  assert (Ht : 0 <= target <= 6 \/ ~ 0 <= target <= 6) by lia.
  destruct Ht as [Ht | Ht].
  - pose proof (Z.mod_pos_bound (target - wd) 7 ltac:(lia)) as Hb.
    destruct (scanForward_exits 6 Ht wd sd Hwd ltac:(lia)) as [d0 H6].
    pose proof (scanForward_mono n (n + SCAN_FUEL) wd sd d ltac:(lia) Hn) as H1.
    pose proof (scanForward_mono 6 (n + SCAN_FUEL) wd sd d0
                  ltac:(unfold SCAN_FUEL; lia) H6) as H2.
    rewrite H1 in H2; injection H2 as ->.
    apply (scanForward_mono 6); [unfold SCAN_FUEL; lia | exact H6].
  - rewrite scanForward_diverges in Hn by assumption. discriminate.
Qed.

Lemma scanBackward_adequate (wd sd d : Z) (n : nat) :
  0 <= wd <= 255 ->
  scanBackward n wd sd target = Some d -> scanBackward SCAN_FUEL wd sd target = Some d.
Proof.
  intros Hwd Hn.
  assert (Hex : (exists d0, scanBackward 255 wd sd target = Some d0) \/
                (target < 0 \/ (wd < target /\ 6 < target))).
  { assert (C : target < 0 \/ (0 <= target <= wd) \/ (wd < target <= 6) \/
                (wd < target /\ 6 < target)) by lia.
    destruct C as [C | [C | [C | C]]].
    - right; left; exact C.
    - left; apply scanBackward_descends; lia.
    - left. pose proof (Z.mod_pos_bound (wd - target) 7 ltac:(lia)).
      apply scanBackward_exits; lia.
    - right; right; exact C. }
  destruct Hex as [[d0 H0] | Hdiv].
  - pose proof (scanBackward_mono n (n + SCAN_FUEL) wd sd d ltac:(lia) Hn) as H1.
    pose proof (scanBackward_mono 255 (n + SCAN_FUEL) wd sd d0
                  ltac:(unfold SCAN_FUEL; lia) H0) as H2.
    rewrite H1 in H2; injection H2 as ->.
    apply (scanBackward_mono 255); [unfold SCAN_FUEL; lia | exact H0].
  - rewrite scanBackward_diverges in Hn by assumption. discriminate.
Qed.

(** The backward scan returns a [uint8_t] when it starts from one. *)
Lemma scanBackward_u8 (n : nat) :
  forall wd sd d, 0 <= sd < 256 ->
  scanBackward n wd sd target = Some d -> 0 <= d < 256.
Proof.
  induction n as [| n IH]; intros wd sd d Hsd;
    cbn [scanBackward]; destruct (negb (wd =? target));
    try discriminate; try (intros H; injection H as <-; exact Hsd).
  apply IH. apply Z.mod_pos_bound; lia.
Qed.

End Scans.

(** Whatever [getDstSwitchDay_fuel] returns with some amount of fuel,
    [getDstSwitchDay] returns: its [None] is the absence of a result, not a
    shortage of fuel. *)
Lemma getDstSwitchDay_fuel_adequate (fuel : nat) (year month : Z)
    (tz : TimezoneDefinition) (isStart : bool) (d : Z) :
  getDstSwitchDay_fuel fuel year month tz isStart = Some d ->
  getDstSwitchDay year month tz isStart = Some d.
Proof.
  unfold getDstSwitchDay, getDstSwitchDay_fuel.
  destruct (dateToDays year month 1) as [days |]; cbn [obind]; [| discriminate].
  pose proof (getWeekdayFromDays_range days) as Hfw.
  destruct (_ >? 0).
  - destruct (scanForward fuel _ _ _) as [sd |] eqn:E; cbn [obind]; [| discriminate].
    intros H. rewrite (scanForward_adequate _ _ _ _ _ Hfw E). exact H.
  - apply scanBackward_adequate.
    pose proof (Z.mod_pos_bound
                  (Z.rem (getWeekdayFromDays days + getDaysInMonth month year - 1) 7)
                  (2 ^ 8) ltac:(lia)).
    unfold u8; lia.
Qed.

Lemma lastWeekday_range (fw dim : Z) :
  0 <= fw <= 6 -> 28 <= dim <= 31 -> 0 <= u8 (Z.rem (fw + dim - 1) 7) <= 6.
Proof.
  intros Hfw Hdim. rewrite Z.rem_mod_nonneg by lia.
  pose proof (Z.mod_pos_bound (fw + dim - 1) 7 ltac:(lia)).
  rewrite u8_small; lia.
Qed.

(** With a weekday field outside 0..6 neither scan ever exits. *)
Lemma getDstSwitchDay_diverges (fuel : nat) (year month : Z)
    (tz : TimezoneDefinition) (isStart : bool) :
  1 <= month <= 12 ->
  ~ 0 <= dst_weekday tz <= 6 ->
  getDstSwitchDay_fuel fuel year month tz isStart = None.
Proof.
  intros Hmonth Hwd. unfold getDstSwitchDay_fuel.
  rewrite dateToDays_eq by lia. cbn [obind].
  match goal with |- context [getWeekdayFromDays ?d] =>
    pose proof (getWeekdayFromDays_range d) as Hfw end.
  destruct (_ >? 0).
  - rewrite scanForward_diverges by assumption. reflexivity.
  - pose proof (getDaysInMonth_range month year Hmonth) as Hdim.
    pose proof (lastWeekday_range _ _ Hfw Hdim) as Hlw.
    apply scanBackward_diverges; lia.
Qed.

(** C3, as stated, fails: with the weekday field set to 7 no amount of
    iterations lets either scan of [getDstSwitchDay] return, neither the
    forward scan (start rule, 2nd occurrence in March 2024) nor the backward
    scan (end rule, last occurrence in November 2024). *)
Lemma getDstSwitchDay_weekday7_never_returns :
  wf_tz tdWeekday7 /\
  ~ (exists fuel d, getDstSwitchDay_fuel fuel 2024 3 tdWeekday7 true = Some d) /\
  ~ (exists fuel d, getDstSwitchDay_fuel fuel 2024 11 tdWeekday7 false = Some d).
Proof.
  split; [constructor; vm_compute; split; congruence |].
  split; intros [fuel [d H]];
    rewrite getDstSwitchDay_diverges in H;
    try discriminate; cbn [tdWeekday7 dst_weekday]; lia.
Qed.

(** With a weekday field in 0..6 and a month in 1..12, six iterations are
    enough for either scan. *)
Lemma getDstSwitchDay_fuel_defined (fuel : nat) (year month : Z)
    (tz : TimezoneDefinition) (isStart : bool) :
  1 <= month <= 12 ->
  0 <= dst_weekday tz <= 6 ->
  (6 <= fuel)%nat ->
  exists d, getDstSwitchDay_fuel fuel year month tz isStart = Some d /\ 0 <= d < 256.
Proof.
  intros Hmonth Hwd Hfuel.
  pose proof (getDaysInMonth_range month year Hmonth) as Hdim.
  unfold getDstSwitchDay_fuel.
  rewrite dateToDays_eq by lia. cbn [obind].
  match goal with |- context [getWeekdayFromDays ?d] =>
    pose proof (getWeekdayFromDays_range d) as Hfw end.
  destruct (_ >? 0).
  - match goal with |- context [scanForward _ ?wd _ _] =>
      pose proof (Z.mod_pos_bound (dst_weekday tz - wd) 7 ltac:(lia)) end.
    destruct (scanForward_exits (dst_weekday tz) fuel Hwd _ 1 Hfw ltac:(lia)) as [sd ->].
    cbn [obind]. eexists; split; [reflexivity |].
    apply Z.mod_pos_bound; lia.
  - pose proof (lastWeekday_range _ _ Hfw Hdim) as Hlw.
    match goal with |- context [scanBackward _ ?lw _ _] =>
      pose proof (Z.mod_pos_bound (lw - dst_weekday tz) 7 ltac:(lia)) end.
    destruct (scanBackward_exits (dst_weekday tz) fuel Hwd _ (getDaysInMonth month year)
                Hlw ltac:(lia)) as [d Hd].
    exists d; split; [exact Hd |].
    eapply scanBackward_u8; [| exact Hd]. lia.
Qed.

(** C3, amended. For every year, every month in 1..12 and every rule whose
    weekday field is a weekday (0..6), [getDstSwitchDay] returns: the
    forward scan for a positive week-occurrence within 7 iterations, the
    backward scan for a last-occurrence selector within days-in-month
    iterations. *)
Theorem getDstSwitchDay_scans_bounded (year month : Z) (tz : TimezoneDefinition)
    (isStart : bool) :
  1 <= month <= 12 ->
  0 <= dst_weekday tz <= 6 ->
  let targetWeek := if isStart then dst_start_week tz else dst_end_week tz in
  (0 < targetWeek ->
   exists d, getDstSwitchDay_fuel 7 year month tz isStart = Some d) /\
  (targetWeek <= 0 ->
   exists d, getDstSwitchDay_fuel (Z.to_nat (getDaysInMonth month year))
               year month tz isStart = Some d) /\
  (exists d, getDstSwitchDay year month tz isStart = Some d).
Proof.
  intros Hmonth Hwd targetWeek.
  pose proof (getDaysInMonth_range month year Hmonth) as Hdim.
  split; [| split].
  - intros _.
    destruct (getDstSwitchDay_fuel_defined 7 year month tz isStart Hmonth Hwd
                ltac:(lia)) as [d [Hd _]].
    exists d; exact Hd.
  - intros _.
    destruct (getDstSwitchDay_fuel_defined (Z.to_nat (getDaysInMonth month year))
                year month tz isStart Hmonth Hwd ltac:(lia)) as [d [Hd _]].
    exists d; exact Hd.
  - destruct (getDstSwitchDay_fuel_defined SCAN_FUEL year month tz isStart Hmonth Hwd
                ltac:(unfold SCAN_FUEL; lia)) as [d [Hd _]].
    exists d; exact Hd.
Qed.

Lemma getDstSwitchDay_scans_bounded_witness :
  exists d, getDstSwitchDay 2024 3 tdEST true = Some d.
Proof.
  refine (proj2 (proj2 (getDstSwitchDay_scans_bounded 2024 3 tdEST true _ _)));
    cbn; lia.
Defined.

(** ** Transitions of a valid rule *)

Lemma getDstSwitchDay_defined (year month : Z) (tz : TimezoneDefinition)
    (isStart : bool) :
  1 <= month <= 12 -> 0 <= dst_weekday tz <= 6 ->
  exists d, getDstSwitchDay year month tz isStart = Some d /\ 0 <= d < 256.
Proof.
  intros Hm Hwd. apply getDstSwitchDay_fuel_defined; try assumption.
  unfold SCAN_FUEL; lia.
Qed.

Section TransitionsOfValidRule.

Variable tz : TimezoneDefinition.
Hypothesis Hvalid : valid_dst_rule tz.

Lemma computeDstStartMs_defined (year : Z) :
  exists s, computeDstStartMs year tz = Some s /\ 0 <= s < 2 ^ 64.
Proof.
  destruct Hvalid as [Hs He Hwd]. unfold computeDstStartMs.
  destruct (getDstSwitchDay_defined year (dst_start_month tz) tz true Hs Hwd)
    as [d [-> _]].
  cbn [obind].
  destruct (dateToMs_defined year (dst_start_month tz) d (dst_start_hour tz) 0 0
              ltac:(lia)) as [l [-> _]].
  cbn [obind]. eexists; split; [reflexivity | apply u64_range].
Qed.

Lemma computeDstEndMs_defined (year : Z) :
  exists e, computeDstEndMs year tz = Some e /\ 0 <= e < 2 ^ 64.
Proof.
  destruct Hvalid as [Hs He Hwd]. unfold computeDstEndMs.
  destruct (getDstSwitchDay_defined year (dst_end_month tz) tz false He Hwd)
    as [d [-> _]].
  cbn [obind].
  destruct (dateToMs_defined year (dst_end_month tz) d (dst_end_hour tz) 0 0
              ltac:(lia)) as [l [-> _]].
  cbn [obind]. eexists; split; [reflexivity | apply u64_range].
Qed.

End TransitionsOfValidRule.

(** ** Transitions without wrap-around *)

(** From 1971 on, a transition is the local switch instant minus the
    offset in effect before it, with no wrap-around anywhere. *)
Lemma computeDstStartMs_exact (tz : TimezoneDefinition) (y s : Z) :
  valid_dst_rule tz -> wf_tz tz -> 1971 <= y <= 65535 ->
  computeDstStartMs y tz = Some s ->
  exists d, 0 <= d < 256 /\
    s = (daysToYear y + daysBeforeMonth y (dst_start_month tz) + (d - 1)) * 86400000
        + dst_start_hour tz * 3600000 - offset_min tz * 60000.
Proof.
  intros [Hsm Hem Hwd] [_ _ _ _ _ Hsh Heh Ho Hod] Hy Hs.
  unfold is_u8, is_i16 in *.
  change (2 ^ 8) with 256 in *. change (2 ^ 15) with 32768 in *.
  unfold computeDstStartMs in Hs.
  destruct (getDstSwitchDay_defined y (dst_start_month tz) tz true Hsm Hwd)
    as [d [Ed Hd]].
  rewrite Ed in Hs. cbn [obind] in Hs.
  rewrite dateToMs_in_range in Hs by lia. cbn [obind] in Hs.
  pose proof (daysToYear_bounds_u16 y ltac:(lia)).
  pose proof (daysToYear_mono 1971 y ltac:(lia)) as Hm.
  change (daysToYear 1971) with 365 in Hm.
  pose proof (daysBeforeMonth_range y (dst_start_month tz) ltac:(lia)).
  rewrite u64_small in Hs by lia.
  injection Hs as <-. exists d. split; [exact Hd | ring].
Qed.

Lemma computeDstEndMs_exact (tz : TimezoneDefinition) (y e : Z) :
  valid_dst_rule tz -> wf_tz tz -> 1971 <= y <= 65535 ->
  computeDstEndMs y tz = Some e ->
  exists d, 0 <= d < 256 /\
    e = (daysToYear y + daysBeforeMonth y (dst_end_month tz) + (d - 1)) * 86400000
        + dst_end_hour tz * 3600000 - offset_dst_min tz * 60000.
Proof.
  intros [Hsm Hem Hwd] [_ _ _ _ _ Hsh Heh Ho Hod] Hy He.
  unfold is_u8, is_i16 in *.
  change (2 ^ 8) with 256 in *. change (2 ^ 15) with 32768 in *.
  unfold computeDstEndMs in He.
  destruct (getDstSwitchDay_defined y (dst_end_month tz) tz false Hem Hwd)
    as [d [Ed Hd]].
  rewrite Ed in He. cbn [obind] in He.
  rewrite dateToMs_in_range in He by lia. cbn [obind] in He.
  pose proof (daysToYear_bounds_u16 y ltac:(lia)).
  pose proof (daysToYear_mono 1971 y ltac:(lia)) as Hm.
  change (daysToYear 1971) with 365 in Hm.
  pose proof (daysBeforeMonth_range y (dst_end_month tz) ltac:(lia)).
  rewrite u64_small in He by lia.
  injection He as <-. exists d. split; [exact Hd | ring].
Qed.

(** For an instant [t] of the years 1971..2500 (below [2^63]), the
    transitions of a year from 1971 on and a rule whose fields have the
    values of their C types, no addition of an offset wraps: the hypothesis
    [noWrap] of the round trip holds. *)
Lemma noWrap_from_1971 (tz : TimezoneDefinition) (t y y' s' e' : Z) :
  valid_dst_rule tz -> wf_tz tz ->
  0 <= t < 2 ^ 63 ->
  yearFromMs t = Some y -> 1971 <= y ->
  1971 <= y' <= 65535 ->
  computeDstStartMs y' tz = Some s' ->
  computeDstEndMs y' tz = Some e' ->
  noWrap tz t s' e'.
Proof.
  intros Hv Hwf Ht Hy Hy1 Hy' Hs He.
  destruct (computeDstStartMs_exact tz y' s' Hv Hwf Hy' Hs) as [ds [Hds ->]].
  destruct (computeDstEndMs_exact tz y' e' Hv Hwf Hy' He) as [de [Hde ->]].
  destruct Hv as [Hsm Hem Hwd]. destruct Hwf as [_ _ _ _ _ Hsh Heh Ho Hod].
  unfold is_u8, is_i16 in *.
  change (2 ^ 63) with 9223372036854775808 in Ht.
  change (2 ^ 8) with 256 in *. change (2 ^ 15) with 32768 in *.
  unfold yearFromMs in Hy.
  destruct (yearFromDays_total (u32 (t / 86400000))) as [Y [E [HY [HL _]]]].
  rewrite E in Hy; injection Hy as ->.
  assert (Ht365 : 31536000000 <= t).
  { destruct HL as [HL | HL]; [lia |].
    pose proof (daysToYear_mono 1971 y ltac:(lia)) as Hm.
    change (daysToYear 1971) with 365 in Hm.
    assert (0 <= t / 86400000) by (apply Z.div_pos; lia).
    pose proof (Z.mod_le (t / 86400000) (2 ^ 32) ltac:(lia) ltac:(lia)) as Hle.
    fold (u32 (t / 86400000)) in Hle.
    assert (365 <= t / 86400000) by lia.
    Z.div_mod_to_equations. lia. }
  pose proof (daysToYear_bounds_u16 y' ltac:(lia)) as Hdy.
  pose proof (daysToYear_mono 1971 y' ltac:(lia)) as Hmono.
  change (daysToYear 1971) with 365 in Hmono.
  pose proof (daysBeforeMonth_range y' (dst_start_month tz) ltac:(lia)).
  pose proof (daysBeforeMonth_range y' (dst_end_month tz) ltac:(lia)).
  unfold noWrap, is_u64. change (2 ^ 64) with 18446744073709551616.
  repeat split; lia.
Qed.

(** ** Known transitions *)

(** C6. For the US Eastern rule the DST-start transition of 2024 is
    2024-03-10T07:00:00 UTC and the DST-end transition of 2024 is
    2024-11-03T06:00:00 UTC: the local switch instant 02:00 is moved to UTC
    with the standard offset (-300) at the start and with the DST offset
    (-240) at the end. *)
Theorem us_eastern_transitions_2024 :
  computeDstStartMs 2024 tdEST = dateToMs 2024 3 10 7 0 0 /\
  computeDstStartMs 2024 tdEST = Some 1710054000000 /\
  computeDstEndMs 2024 tdEST = dateToMs 2024 11 3 6 0 0 /\
  computeDstEndMs 2024 tdEST = Some 1730613600000 /\
  getDstSwitchDay 2024 3 tdEST true = Some 10 /\
  getDstSwitchDay 2024 11 tdEST false = Some 3 /\
  computeDstStartMs 2024 tdEST =
    (l <- dateToMs 2024 3 10 2 0 0 ;; Some (l - offset_min tdEST * 60000)) /\
  computeDstEndMs 2024 tdEST =
    (l <- dateToMs 2024 11 3 2 0 0 ;; Some (l - offset_dst_min tdEST * 60000)).
Proof. repeat split; vm_compute; reflexivity. Qed.

(* ================================================================== *)
(** * Properties: Offset resolver *)
(* ================================================================== *)

(** ** The resolver from an empty cache *)

Lemma cacheHit_empty (x : Z) : cacheHit x emptyCache = false.
Proof.
  unfold cacheHit, emptyCache; cbn [valid_from_ms valid_until_ms].
  destruct (Z.geb_spec x 0); destruct (Z.ltb_spec x 0); try reflexivity; lia.
Qed.

Section EmptyCache.

Variable tz : TimezoneDefinition.
Hypothesis Hvalid : valid_dst_rule tz.

(** For a valid rule the miss path always completes; it reports the two
    transitions of the year of [x] and caches the offset of the period of
    [x]. *)
Lemma missPeriod_spec (x y s e : Z) :
  yearFromMs x = Some y ->
  computeDstStartMs y tz = Some s ->
  computeDstEndMs y tz = Some e ->
  exists c, missPeriod x tz = Some (s, e, c) /\
            current_offset c = seasonOffset tz x s e.
Proof.
  intros Hy Hs He. unfold missPeriod, computeDstTransitions, seasonOffset.
  rewrite Hy; cbn [obind]. rewrite Hs; cbn [obind]. rewrite He; cbn [obind].
  destruct (computeDstStartMs_defined tz Hvalid (u16 (y - 1))) as [sp [-> _]].
  destruct (computeDstStartMs_defined tz Hvalid (u16 (y + 1))) as [sn [-> _]].
  destruct (computeDstEndMs_defined tz Hvalid (u16 (y - 1))) as [ep [-> _]].
  destruct (computeDstEndMs_defined tz Hvalid (u16 (y + 1))) as [en [-> _]].
  destruct (s <? e); destruct (x <? s); destruct (x <? e); cbn [obind];
    eexists; split; reflexivity.
Qed.

Lemma getOffsetForUtc_empty (t y s e : Z) :
  yearFromMs t = Some y ->
  computeDstStartMs y tz = Some s ->
  computeDstEndMs y tz = Some e ->
  option_map fst (getOffsetForUtc t tz emptyCache) = Some (seasonOffset tz t s e).
Proof.
  intros Hy Hs He. unfold getOffsetForUtc.
  destruct (Z.eqb_spec (dst_start_month tz) 0) as [E | _];
    [destruct Hvalid as [Hsm _ _]; lia |].
  rewrite cacheHit_empty.
  destruct (missPeriod_spec t y s e Hy Hs He) as [c [-> Hc]].
  cbn [obind option_map fst]. rewrite Hc. reflexivity.
Qed.

Lemma utcToLocal_eq (t y s e : Z) :
  yearFromMs t = Some y ->
  computeDstStartMs y tz = Some s ->
  computeDstEndMs y tz = Some e ->
  utcToLocal t tz = Some (u64 (t + seasonOffset tz t s e * 60000)).
Proof.
  intros Hy Hs He. unfold utcToLocal.
  destruct (Z.eqb_spec (dst_start_month tz) 0) as [E | _];
    [destruct Hvalid as [Hsm _ _]; lia |].
  pose proof (getOffsetForUtc_empty t y s e Hy Hs He) as H.
  destruct (getOffsetForUtc t tz emptyCache) as [[o c] |]; [| discriminate].
  cbn [option_map fst] in H; injection H as ->. reflexivity.
Qed.

(** [localToUtc] on a local time whose standard-offset approximation falls
    in year [y]: the offset is chosen by comparing the local time with the
    local forms of the two transitions of [y]. *)
Lemma localToUtc_eq (l y s e : Z) (preferDst : bool) :
  yearFromMs (u64 (l - offset_min tz * 60000)) = Some y ->
  computeDstStartMs y tz = Some s ->
  computeDstEndMs y tz = Some e ->
  localToUtc l tz preferDst =
  Some (u64 (l - (if (if s <? e
                      then (l >=? u64 (s + offset_min tz * 60000)) &&
                           (l <? u64 (e + offset_dst_min tz * 60000))
                      else (l >=? u64 (s + offset_min tz * 60000)) ||
                           (l <? u64 (e + offset_dst_min tz * 60000)))
                  then offset_dst_min tz else offset_min tz) * 60000)).
Proof.
  intros Hy Hs He. unfold localToUtc, getOffsetForLocal.
  destruct (Z.eqb_spec (dst_start_month tz) 0) as [E | _];
    [destruct Hvalid as [Hsm _ _]; lia |].
  rewrite cacheHit_empty.
  destruct (missPeriod_spec _ y s e Hy Hs He) as [c [-> _]].
  cbn [obind].
  destruct (s <? e);
    match goal with |- context [if ?b then Some (offset_dst_min tz, c) else _] =>
      destruct b end; reflexivity.
Qed.

End EmptyCache.

(** ** Southern-hemisphere rule *)

(** C7. For the rule "start October, 1st Sunday, standard offset +600; end
    April, 1st Sunday, DST offset +660", whatever the two switch hours of
    the day: the DST period that starts on 2023-10-01 runs across the year
    boundary to 2024-04-07, and for every instant of it, in 2023 or in 2024,
    the resolver returns +660 from an empty cache and caches exactly that
    period; for every instant of the standard period from 2024-04-07 to
    2024-10-06 it returns +600 and caches exactly that period.  In
    particular the offset resolved for 2024-01-01T00:00:00 UTC is +660 and
    the offset resolved for 2024-07-01T00:00:00 UTC is +600. *)
Theorem southern_rule_offsets (startHour endHour : Z) :
  0 <= startHour < 24 ->
  0 <= endHour < 24 ->
  let tz := tdSouth startHour endHour in
  let start2023 := 1696118400000 + startHour * 3600000 - 600 * 60000 in
  let end2024 := 1712448000000 + endHour * 3600000 - 660 * 60000 in
  let start2024 := 1728172800000 + startHour * 3600000 - 600 * 60000 in
  (dateToMs 2024 1 1 0 0 0 = Some 1704067200000 /\
   dateToMs 2024 7 1 0 0 0 = Some 1719792000000 /\
   dateToMs 2023 10 1 0 0 0 = Some 1696118400000 /\
   dateToMs 2024 4 7 0 0 0 = Some 1712448000000 /\
   dateToMs 2024 10 6 0 0 0 = Some 1728172800000) /\
  (computeDstStartMs 2023 tz = Some start2023 /\
   computeDstEndMs 2024 tz = Some end2024 /\
   computeDstStartMs 2024 tz = Some start2024 /\
   start2023 < 1704067200000 < end2024 /\
   end2024 < 1719792000000 < start2024) /\
  (forall t, start2023 <= t < end2024 ->
     getOffsetForUtc t tz emptyCache
     = Some (660, mkCache start2023 end2024 660)) /\
  (forall t, end2024 <= t < start2024 ->
     getOffsetForUtc t tz emptyCache
     = Some (600, mkCache end2024 start2024 600)) /\
  option_map fst (getOffsetForUtc 1704067200000 tz emptyCache) = Some 660 /\
  option_map fst (getOffsetForUtc 1719792000000 tz emptyCache) = Some 600.
Proof.
  intros Hs He tz start2023 end2024 start2024.
  assert (Htr : computeDstStartMs 2023 tz = Some start2023 /\
                computeDstEndMs 2023 tz
                = Some (1680393600000 + endHour * 3600000 - 660 * 60000) /\
                computeDstStartMs 2024 tz = Some start2024 /\
                computeDstEndMs 2024 tz = Some end2024).
  { assert (Hall : forallb (fun hs => forallb (fun he =>
                match computeDstStartMs 2023 (tdSouth hs he),
                      computeDstEndMs 2023 (tdSouth hs he),
                      computeDstStartMs 2024 (tdSouth hs he),
                      computeDstEndMs 2024 (tdSouth hs he) with
                | Some a, Some b, Some c, Some d =>
                    (a =? 1696118400000 + hs * 3600000 - 600 * 60000) &&
                    (b =? 1680393600000 + he * 3600000 - 660 * 60000) &&
                    (c =? 1728172800000 + hs * 3600000 - 600 * 60000) &&
                    (d =? 1712448000000 + he * 3600000 - 660 * 60000)
                | _, _, _, _ => false
                end) (Zrange 0 24)) (Zrange 0 24) = true)
      by (vm_compute; reflexivity).
    pose proof (Zrange_forallb _ _ _ Hall startHour ltac:(lia)) as Hrow.
    cbv beta in Hrow.
    pose proof (Zrange_forallb _ _ _ Hrow endHour ltac:(lia)) as Hcell.
    cbv beta in Hcell. fold tz in Hcell.
    destruct (computeDstStartMs 2023 tz) as [a |]; [| discriminate].
    destruct (computeDstEndMs 2023 tz) as [b |]; [| discriminate].
    destruct (computeDstStartMs 2024 tz) as [c |]; [| discriminate].
    destruct (computeDstEndMs 2024 tz) as [d |]; [| discriminate].
    apply andb_true_iff in Hcell as [Hcell Hd].
    apply andb_true_iff in Hcell as [Hcell Hc].
    apply andb_true_iff in Hcell as [Ha Hb].
    apply Z.eqb_eq in Ha, Hb, Hc, Hd. subst a b c d.
    repeat split; reflexivity. }
  destruct Htr as (Hs23 & He23 & Hs24 & He24).
  assert (Hdst : forall t, start2023 <= t < end2024 ->
            getOffsetForUtc t tz emptyCache
            = Some (660, mkCache start2023 end2024 660)).
  { intros t Ht. unfold getOffsetForUtc.
    change (dst_start_month tz =? 0) with false. cbv iota.
    rewrite cacheHit_empty. unfold missPeriod, computeDstTransitions.
    destruct (Z.lt_ge_cases t 1704067200000) as [Hlt | Hge].
    - rewrite (yearFromMs_of_range t 2023) by
        (try change (daysToYear (2023 + 1)) with 19723;
         try change (daysToYear 2023) with 19358; subst start2023; lia).
      cbn [obind]. rewrite Hs23, He23. cbn [obind].
      change (u16 (2023 + 1)) with 2024. rewrite He24.
      subst start2023 end2024.
      repeat match goal with
             | |- context [?a <? ?b] => destruct (Z.ltb_spec a b); try lia
             end.
      reflexivity.
    - rewrite (yearFromMs_of_range t 2024) by
        (try change (daysToYear (2024 + 1)) with 20089;
         try change (daysToYear 2024) with 19723; subst end2024; lia).
      cbn [obind]. rewrite Hs24, He24. cbn [obind].
      change (u16 (2024 - 1)) with 2023. rewrite Hs23.
      subst start2023 end2024 start2024.
      repeat match goal with
             | |- context [?a <? ?b] => destruct (Z.ltb_spec a b); try lia
             end.
      reflexivity. }
  assert (Hstd : forall t, end2024 <= t < start2024 ->
            getOffsetForUtc t tz emptyCache
            = Some (600, mkCache end2024 start2024 600)).
  { intros t Ht. unfold getOffsetForUtc.
    change (dst_start_month tz =? 0) with false. cbv iota.
    rewrite cacheHit_empty. unfold missPeriod, computeDstTransitions.
    rewrite (yearFromMs_of_range t 2024) by
      (try change (daysToYear (2024 + 1)) with 20089;
       try change (daysToYear 2024) with 19723;
       subst end2024 start2024; lia).
    cbn [obind]. rewrite Hs24, He24. cbn [obind].
    subst end2024 start2024.
    repeat match goal with
           | |- context [?a <? ?b] => destruct (Z.ltb_spec a b); try lia
           end.
    reflexivity. }
  split; [repeat split; reflexivity |].
  split; [repeat split; try assumption; subst start2023 end2024 start2024; lia |].
  split; [exact Hdst | split; [exact Hstd |]].
  split.
  - rewrite Hdst by (subst start2023 end2024; lia). reflexivity.
  - rewrite Hstd by (subst end2024 start2024; lia). reflexivity.
Qed.

Lemma southern_rule_offsets_witness :
  getOffsetForUtc 1704067199999 tdAEST emptyCache
  = Some (660, mkCache 1696089600000 1712419200000 660) /\
  getOffsetForUtc 1704067200000 tdAEST emptyCache
  = Some (660, mkCache 1696089600000 1712419200000 660) /\
  getOffsetForUtc 1719792000000 tdAEST emptyCache
  = Some (600, mkCache 1712419200000 1728144000000 600).
Proof.
  destruct (southern_rule_offsets 2 3) as (_ & _ & Hd & Hs & _); [lia | lia |].
  split; [apply (Hd 1704067199999); lia |].
  split; [apply (Hd 1704067200000); lia | apply (Hs 1719792000000); lia].
Defined.

(** ** Cache soundness *)

(** C5. After a lookup of [getOffsetForUtc] that missed the cache and left
    it holding the interval [[a, b)] with offset [X], every further call
    with the same rule and a timestamp in [[a, b)] passes the hit test and
    returns [X] with the cache unchanged, and so does any sequence of such
    calls; a call at exactly [b] fails the hit test and goes through the
    miss path again. *)
Theorem cache_soundness (tz : TimezoneDefinition) (c0 c1 : DstCache) (t0 X : Z) :
  dst_start_month tz <> 0 ->
  cacheHit t0 c0 = false ->
  getOffsetForUtc t0 tz c0 = Some (X, c1) ->
  (forall t, valid_from_ms c1 <= t < valid_until_ms c1 ->
     cacheHit t c1 = true /\ getOffsetForUtc t tz c1 = Some (X, c1)) /\
  (forall ts, Forall (fun t => valid_from_ms c1 <= t < valid_until_ms c1) ts ->
     lookups tz c1 ts = Some (map (fun _ => X) ts, c1)) /\
  cacheHit (valid_until_ms c1) c1 = false /\
  getOffsetForUtc (valid_until_ms c1) tz c1 =
    (p <- missPeriod (valid_until_ms c1) tz ;;
     Some (current_offset (snd p), snd p)).
Proof.
  intros Hdst Hmiss Hcall.
  unfold getOffsetForUtc in Hcall.
  destruct (Z.eqb_spec (dst_start_month tz) 0) as [E | _]; [contradiction |].
  rewrite Hmiss in Hcall.
  destruct (missPeriod t0 tz) as [[[s e] c] |]; cbn [obind] in Hcall; [| discriminate].
  injection Hcall as HX Hc; subst c.
  assert (Hb : cacheHit (valid_until_ms c1) c1 = false).
  { unfold cacheHit. rewrite Z.ltb_irrefl. apply andb_false_r. }
  assert (Hone : forall t, valid_from_ms c1 <= t < valid_until_ms c1 ->
            cacheHit t c1 = true /\ getOffsetForUtc t tz c1 = Some (X, c1)).
  { intros t [Hlo Hhi].
    assert (Hhit : cacheHit t c1 = true).
    { unfold cacheHit. apply andb_true_iff; split;
        [apply Z.geb_le | apply Z.ltb_lt]; assumption. }
    split; [exact Hhit |].
    unfold getOffsetForUtc.
    destruct (Z.eqb_spec (dst_start_month tz) 0) as [E | _]; [contradiction |].
    rewrite Hhit, HX; reflexivity. }
  split; [exact Hone | split; [| split]].
  - intros ts Hts. induction Hts as [| t ts Ht _ IH]; [reflexivity |].
    cbn [lookups map]. rewrite (proj2 (Hone t Ht)). cbn [obind snd fst].
    rewrite IH. reflexivity.
  - exact Hb.
  - unfold getOffsetForUtc.
    destruct (Z.eqb_spec (dst_start_month tz) 0) as [E | _]; [contradiction |].
    rewrite Hb.
    destruct (missPeriod (valid_until_ms c1) tz) as [[[s' e'] c'] |]; reflexivity.
Qed.

Lemma cache_soundness_witness :
  getOffsetForUtc 1705000000000 tdEST (mkCache 1699164000000 1710054000000 (-300))
  = Some (-300, mkCache 1699164000000 1710054000000 (-300)).
Proof.
  refine (proj2 (proj1 (cache_soundness tdEST emptyCache
                   (mkCache 1699164000000 1710054000000 (-300))
                   1704067200000 (-300) _ _ _) 1705000000000 _)).
  - discriminate.
  - reflexivity.
  - vm_compute; reflexivity.
  - cbn; lia.
Defined.

(* ================================================================== *)
(** * Properties: Translator facade *)
(* ================================================================== *)

(** ** Configuration *)

(** C2, as stated, fails: a rule with start month 0 and end month 5 breaks
    the rule invariant and is accepted all the same. *)
Lemma setLocalTimezone_accepts_end_only :
  wf_tz tdEndOnly /\
  ~ rule_invariant tdEndOnly /\
  setLocalTimezone newTranslator tdEndOnly = (true, mkTranslator tdEndOnly emptyCache).
Proof.
  split; [| split].
  - constructor; vm_compute; split; congruence.
  - intros [H _]. specialize (H eq_refl). discriminate H.
  - reflexivity.
Qed.

(** C2, amended. [setLocalTimezone] succeeds exactly when neither month
    exceeds 12 and a non-zero start month comes with a non-zero end month;
    on success it stores the rule and empties the cache; on failure the
    stored rule and the cache are those of before the call.  A rule that
    satisfies the rule invariant is always accepted. *)
Theorem setLocalTimezone_spec (self : TimezoneTranslator) (tz : TimezoneDefinition) :
  (fst (setLocalTimezone self tz) = true <-> accepted_rule tz) /\
  (fst (setLocalTimezone self tz) = true ->
   snd (setLocalTimezone self tz) = mkTranslator tz emptyCache) /\
  (fst (setLocalTimezone self tz) = false -> snd (setLocalTimezone self tz) = self) /\
  (is_u8 (dst_start_month tz) -> is_u8 (dst_end_month tz) ->
   rule_invariant tz -> fst (setLocalTimezone self tz) = true).
Proof.
  unfold setLocalTimezone, accepted_rule, rule_invariant, is_u8.
  destruct (Z.gtb_spec (dst_start_month tz) 12) as [Hs | Hs];
  destruct (Z.gtb_spec (dst_end_month tz) 12) as [He | He];
  destruct (Z.eqb_spec (dst_start_month tz) 0) as [Hs0 | Hs0];
  destruct (Z.eqb_spec (dst_end_month tz) 0) as [He0 | He0];
  cbn [orb andb negb fst snd];
  repeat split; try congruence; try lia; intros; try lia; try tauto.
Qed.

(** ** 32-bit second inputs *)

(** C9. For a 32-bit seconds value [s], [normalize32] returns
    [(s + 2^32) * 1000] when [s] is below 1,577,836,800 and [s * 1000]
    otherwise, without any 64-bit wrap-around; in particular
    [s = 1,000,000,000] gives [(s + 2^32) * 1000] and [s = 1,700,000,000]
    gives [s * 1000]. *)
Theorem normalize32_rollover (s : Z) :
  0 <= s < 2 ^ 32 ->
  (s < 1577836800 -> normalize32 s = (s + 2 ^ 32) * 1000) /\
  (1577836800 <= s -> normalize32 s = s * 1000) /\
  normalize32 1000000000 = (1000000000 + 2 ^ 32) * 1000 /\
  normalize32 1700000000 = 1700000000 * 1000.
Proof.
  intros Hs.
  assert (E32 : 2 ^ 32 = 4294967296) by reflexivity.
  rewrite E32 in *.
  unfold normalize32, UNIX_OFFSET_2020.
  repeat split; try reflexivity.
  - intros Hlt.
    destruct (Z.ltb_spec s 1577836800) as [_ | Hge]; [| lia].
    rewrite (u64_small (s + 4294967296)) by lia.
    apply u64_small; lia.
  - intros Hge.
    destruct (Z.ltb_spec s 1577836800) as [Hlt | _]; [lia |].
    apply u64_small; lia.
Qed.

Lemma normalize32_rollover_witness :
  normalize32 1500000000 = (1500000000 + 2 ^ 32) * 1000.
Proof.
  apply (normalize32_rollover 1500000000); [vm_compute; split; congruence | lia].
Defined.

(** ** Fixed-offset rules *)

(** C8. For a rule without DST (start month 0) and standard offset [O],
    [utcToLocal t] is [t + O * 60000] and [localToUtc t] is
    [t - O * 60000], both in the 64-bit unsigned arithmetic of the code (and
    as plain integers whenever the sum stays inside the 64-bit range); the
    two are exact inverses at every 64-bit [t]. *)
Theorem fixed_offset_exact (tz : TimezoneDefinition) (t : Z) (preferDst : bool) :
  dst_start_month tz = 0 ->
  0 <= t < 2 ^ 64 ->
  utcToLocal t tz = Some (u64 (t + offset_min tz * 60000)) /\
  localToUtc t tz preferDst = Some (u64 (t - offset_min tz * 60000)) /\
  (0 <= t + offset_min tz * 60000 < 2 ^ 64 ->
   utcToLocal t tz = Some (t + offset_min tz * 60000)) /\
  (0 <= t - offset_min tz * 60000 < 2 ^ 64 ->
   localToUtc t tz preferDst = Some (t - offset_min tz * 60000)) /\
  (l <- utcToLocal t tz ;; localToUtc l tz preferDst) = Some t /\
  (u <- localToUtc t tz preferDst ;; utcToLocal u tz) = Some t.
Proof.
  intros Hno Ht.
  unfold utcToLocal, localToUtc; rewrite Hno; cbn [Z.eqb obind].
  repeat split.
  - intros Hr; f_equal; apply Z.mod_small; exact Hr.
  - intros Hr; f_equal; apply Z.mod_small; exact Hr.
  - f_equal; apply u64_add_sub; exact Ht.
  - f_equal; apply u64_sub_add; exact Ht.
Qed.

Lemma fixed_offset_exact_witness :
  utcToLocal 1710054000000 tdIST = Some (1710054000000 + 330 * 60000).
Proof.
  apply (fixed_offset_exact tdIST 1710054000000 true);
    [reflexivity | vm_compute; split; congruence | vm_compute; split; congruence].
Defined.

(** ** Round trip UTC -> local -> UTC *)

Lemma seasonOffset_cases (tz : TimezoneDefinition) (t s e : Z) :
  seasonOffset tz t s e = offset_min tz \/ seasonOffset tz t s e = offset_dst_min tz.
Proof.
  unfold seasonOffset.
  destruct (s <? e); destruct (t <? s); destruct (t <? e); auto.
Qed.

(** The round trip holds as soon as [t] is at least the DST shift away from
    the two transitions [s'], [e'] of the year of the approximation that
    [localToUtc] starts from, these place [t] in the period in which the
    transitions [s], [e] of its own year place it, and no addition of an
    offset wraps. *)
Lemma roundtrip_clear_of_transitions (tz : TimezoneDefinition)
    (t y s e y' s' e' : Z) (preferDst : bool) :
  valid_dst_rule tz ->
  is_u64 t ->
  yearFromMs t = Some y ->
  computeDstStartMs y tz = Some s ->
  computeDstEndMs y tz = Some e ->
  yearFromMs (u64 (u64 (t + seasonOffset tz t s e * 60000) - offset_min tz * 60000))
    = Some y' ->
  computeDstStartMs y' tz = Some s' ->
  computeDstEndMs y' tz = Some e' ->
  Z.abs (offset_dst_min tz * 60000 - offset_min tz * 60000) <= Z.abs (t - s') ->
  Z.abs (offset_dst_min tz * 60000 - offset_min tz * 60000) <= Z.abs (t - e') ->
  noWrap tz t s' e' ->
  seasonOffset tz t s' e' = seasonOffset tz t s e ->
  exists l, utcToLocal t tz = Some l /\ localToUtc l tz preferDst = Some t.
Proof.
  intros Hv Ht Hy Hs He Hy' Hs' He' Hfs Hfe (Hw1 & Hw2 & Hw3 & Hw4) Hagree.
  rewrite (utcToLocal_eq tz Hv t y s e Hy Hs He).
  eexists; split; [reflexivity |].
  rewrite (localToUtc_eq tz Hv _ y' s' e' preferDst Hy' Hs' He').
  f_equal.
  unfold is_u64 in *. change (2 ^ 64) with 18446744073709551616 in *.
  rewrite (u64_small (s' + _)), (u64_small (e' + _)) by lia.
  revert Hagree.
  destruct (seasonOffset_cases tz t s e) as [-> | ->];
    unfold seasonOffset;
    rewrite (u64_small (t + _)) by lia;
    destruct (Z.ltb_spec s' e'); destruct (Z.ltb_spec t s'); destruct (Z.ltb_spec t e');
    intros Hagree;
    match goal with |- context [?a >=? ?b] => destruct (Z.geb_spec a b) end;
    match goal with |- context [?a <? ?b] => destruct (Z.ltb_spec a b) end;
    cbn [andb orb]; rewrite u64_small by lia; lia.
Qed.

(** An instant before the year 2477 that passes the check is more than one
    hour away from every transition: those of the years from 2502 on lie
    after it. *)
Lemma farFromAllb_sound (tz : TimezoneDefinition) (t : Z) :
  valid_dst_rule tz -> wf_tz tz ->
  0 <= t < 16000000000000 ->
  farFromAllb tz t = true -> forall x, isTransition tz x -> farFrom t x.
Proof.
  intros Hv Hwf Ht H x [y [Hy Hx]].
  unfold is_u16 in Hy. change (2 ^ 16) with 65536 in Hy.
  assert (C : y < 2502 \/ 2502 <= y) by lia.
  destruct C as [C | C].
  - unfold farFromAllb in H.
    pose proof (Zrange_forallb _ _ _ H y ltac:(lia)) as Hc. cbv beta in Hc.
    destruct (computeDstStartMs y tz) as [s |]; [| discriminate].
    destruct (computeDstEndMs y tz) as [e |]; [| discriminate].
    apply andb_true_iff in Hc as [H1 H2].
    apply Z.ltb_lt in H1, H2. unfold farFrom.
    destruct Hx as [Hx | Hx]; injection Hx as <-; assumption.
  - pose proof (daysToYear_mono 2502 y C) as Hm.
    change (daysToYear 2502) with 194309 in Hm.
    pose proof (daysBeforeMonth_range y (dst_start_month tz)
                  ltac:(destruct Hv; lia)).
    pose proof (daysBeforeMonth_range y (dst_end_month tz)
                  ltac:(destruct Hv; lia)).
    unfold farFrom.
    destruct Hx as [Hx | Hx].
    + destruct (computeDstStartMs_exact tz y x Hv Hwf ltac:(lia) Hx) as [d [Hd ->]].
      destruct Hwf as [_ _ _ _ _ Hsh Heh Ho Hod].
      unfold is_u8, is_i16 in *.
      change (2 ^ 8) with 256 in *. change (2 ^ 15) with 32768 in *. lia.
    + destruct (computeDstEndMs_exact tz y x Hv Hwf ltac:(lia) Hx) as [d [Hd ->]].
      destruct Hwf as [_ _ _ _ _ Hsh Heh Ho Hod].
      unfold is_u8, is_i16 in *.
      change (2 ^ 8) with 256 in *. change (2 ^ 15) with 32768 in *. lia.
Qed.




(** When the approximation stays in the year of [t], being more than one
    hour away from the two transitions of that year is enough. *)
Lemma roundtrip_same_year (tz : TimezoneDefinition) (t y s e : Z) (preferDst : bool) :
  valid_dst_rule tz ->
  Z.abs (offset_dst_min tz - offset_min tz) <= 60 ->
  is_u64 t ->
  yearFromMs t = Some y ->
  computeDstStartMs y tz = Some s ->
  computeDstEndMs y tz = Some e ->
  yearFromMs (u64 (u64 (t + seasonOffset tz t s e * 60000) - offset_min tz * 60000))
    = Some y ->
  farFrom t s ->
  farFrom t e ->
  noWrap tz t s e ->
  exists l, utcToLocal t tz = Some l /\ localToUtc l tz preferDst = Some t.
Proof.
  intros Hv Hshift Ht Hy Hs He Hy' Hfs Hfe Hnw.
  unfold farFrom in Hfs, Hfe.
  apply (roundtrip_clear_of_transitions tz t y s e y s e preferDst);
    try assumption; try lia; reflexivity.
Qed.

(** While standard time is in effect at [t] the approximation that
    [localToUtc] starts from is [t] itself, so it stays in the year of
    [t]. *)
Lemma approximation_exact_in_standard_time (tz : TimezoneDefinition) (t s e : Z) :
  is_u64 t ->
  seasonOffset tz t s e = offset_min tz ->
  u64 (u64 (t + seasonOffset tz t s e * 60000) - offset_min tz * 60000) = t.
Proof.
  intros Ht ->. apply u64_add_sub. exact Ht.
Qed.

(** ** The fall-back overlap *)

(** [localToUtc] never looks at [preferDst]. *)
Lemma localToUtc_preferDst_irrelevant (t : Z) (tz : TimezoneDefinition) (b1 b2 : bool) :
  localToUtc t tz b1 = localToUtc t tz b2.
Proof. reflexivity. Qed.

(** C1, at the US Eastern rule and the local time 2024-11-03 01:30:00, in
    the repeated hour 01:00-02:00: [localToUtc] returns the earlier instant
    05:30 UTC for [preferDst = true] and the very same instant for
    [preferDst = false], although 06:30 UTC, the later instant, has the same
    local time. *)
Theorem localToUtc_overlap_same_for_both_preferences :
  dateToMs 2024 11 3 1 30 0 = Some 1730597400000 /\
  dateToMs 2024 11 3 5 30 0 = Some 1730611800000 /\
  dateToMs 2024 11 3 6 30 0 = Some 1730615400000 /\
  localToUtc 1730597400000 tdEST true = Some 1730611800000 /\
  localToUtc 1730597400000 tdEST false = Some 1730611800000 /\
  utcToLocal 1730611800000 tdEST = Some 1730597400000 /\
  utcToLocal 1730615400000 tdEST = Some 1730597400000.
Proof. repeat split; vm_compute; reflexivity. Qed.


(* ================================================================== *)
(** * Further properties: calendar arithmetic *)
(* ================================================================== *)

(** ** Leap years and year lengths *)

(** X1. [isLeapYear] is the Gregorian rule, and the closed-form leap count
    of [dateToDays] agrees with it: from 1970 to 65534, January 1st of the
    next year comes 365 days after January 1st of a common year and 366
    days after that of a leap year. *)
Theorem year_length_matches_isLeapYear (y : Z) :
  1970 <= y <= 65534 ->
  (isLeapYear y = 1 <-> y mod 4 = 0 /\ (y mod 100 <> 0 \/ y mod 400 = 0)) /\
  (isLeapYear y = 0 \/ isLeapYear y = 1) /\
  exists a, dateToDays y 1 1 = Some a /\
            dateToDays (y + 1) 1 1 = Some (a + 365 + isLeapYear y).
Proof.
  intros Hy. split; [| split].
  - unfold isLeapYear.
    destruct (Z.eqb_spec (y mod 400) 0);
      destruct (Z.eqb_spec (y mod 100) 0);
      destruct (Z.eqb_spec (y mod 4) 0);
      split; intros; Z.div_mod_to_equations; lia.
  - destruct (isLeapYear_cases y) as [[E _] | [E _]]; auto.
  - exists (daysToYear y). rewrite !dateToDays_in_range by lia.
    rewrite !daysBeforeMonth_1, daysToYear_succ. split; f_equal; ring.
Qed.

Lemma year_length_matches_isLeapYear_witness :
  exists a, dateToDays 2024 1 1 = Some a /\
            dateToDays (2024 + 1) 1 1 = Some (a + 365 + isLeapYear 2024).
Proof.
  apply (year_length_matches_isLeapYear 2024); lia.
Defined.

(** ** Month lengths *)

(** X2. [getDaysInMonth] returns 0 for a month outside 1..12 and 28..31
    inside; February has 28 days plus the leap flag and the twelve months
    add up to 365 plus the leap flag. *)
Theorem getDaysInMonth_table (m y : Z) :
  (m < 1 \/ 12 < m -> getDaysInMonth m y = 0) /\
  (1 <= m <= 12 -> 28 <= getDaysInMonth m y <= 31) /\
  getDaysInMonth 2 y = 28 + isLeapYear y /\
  getDaysInMonth 1 y + getDaysInMonth 2 y + getDaysInMonth 3 y
  + getDaysInMonth 4 y + getDaysInMonth 5 y + getDaysInMonth 6 y
  + getDaysInMonth 7 y + getDaysInMonth 8 y + getDaysInMonth 9 y
  + getDaysInMonth 10 y + getDaysInMonth 11 y + getDaysInMonth 12 y
  = 365 + isLeapYear y.
Proof.
  split; [| split; [| split]].
  - intros H. unfold getDaysInMonth.
    destruct (Z.ltb_spec m 1); destruct (Z.gtb_spec m 12); cbn [orb];
      try reflexivity; lia.
  - apply getDaysInMonth_range.
  - unfold getDaysInMonth.
    destruct (isLeapYear_cases y) as [[-> E] | [-> E]]; rewrite E; reflexivity.
  - unfold getDaysInMonth.
    destruct (isLeapYear_cases y) as [[-> E] | [-> E]]; rewrite E; reflexivity.
Qed.

(** ** Weekdays *)

(** X3. [getWeekdayFromDays] returns a weekday 0..6, 1970-01-01 is a
    Thursday (4), the next day has the next weekday and the weekday repeats
    every seven days, as long as the 32-bit sum [days + 4] does not wrap. *)
Theorem getWeekdayFromDays_cycle (d : Z) :
  0 <= d < 2 ^ 32 - 11 ->
  0 <= getWeekdayFromDays d <= 6 /\
  getWeekdayFromDays 0 = 4 /\
  getWeekdayFromDays (d + 1) = (getWeekdayFromDays d + 1) mod 7 /\
  getWeekdayFromDays (d + 7) = getWeekdayFromDays d.
Proof.
  intros Hd. change (2 ^ 32) with 4294967296 in Hd.
  assert (E : forall x, 0 <= x < 4294967296 - 4 ->
            getWeekdayFromDays x = (x + 4) mod 7).
  { intros x Hx. unfold getWeekdayFromDays. rewrite u32_small by lia.
    pose proof (Z.mod_pos_bound (x + 4) 7 ltac:(lia)). apply u8_small; lia. }
  split; [apply getWeekdayFromDays_range |].
  split; [reflexivity |].
  rewrite !E by lia. split; Z.div_mod_to_equations; lia.
Qed.

Lemma getWeekdayFromDays_cycle_witness :
  getWeekdayFromDays (19792 + 7) = getWeekdayFromDays 19792.
Proof.
  apply (getWeekdayFromDays_cycle 19792). vm_compute; split; congruence.
Defined.

(** ** Consecutive dates *)

(** X4. From 1970 to 65534 [dateToDays] counts consecutive calendar dates
    consecutively: the day after a date, whether in the same month, on the
    first of the next month or on January 1st of the next year, has the next
    day number. *)
Theorem dateToDays_consecutive (y m d : Z) :
  1970 <= y <= 65534 ->
  1 <= m <= 12 ->
  1 <= d <= getDaysInMonth m y ->
  exists a, dateToDays y m d = Some a /\
    (d < getDaysInMonth m y -> dateToDays y m (d + 1) = Some (a + 1)) /\
    (d = getDaysInMonth m y -> m < 12 -> dateToDays y (m + 1) 1 = Some (a + 1)) /\
    (d = getDaysInMonth m y -> m = 12 -> dateToDays (y + 1) 1 1 = Some (a + 1)).
Proof.
  intros Hy Hm Hd.
  pose proof (getDaysInMonth_range m y Hm) as Hdim.
  exists (daysToYear y + daysBeforeMonth y m + (d - 1)).
  split; [apply dateToDays_in_range; lia |].
  split; [| split].
  - intros Hlt. rewrite dateToDays_in_range by lia. f_equal; ring.
  - intros -> Hlt. rewrite dateToDays_in_range by lia.
    rewrite daysBeforeMonth_succ by lia. f_equal; ring.
  - intros -> ->. rewrite dateToDays_in_range by lia.
    rewrite daysToYear_succ, daysBeforeMonth_1.
    pose proof (daysBeforeMonth_succ y 12 ltac:(lia)) as H13.
    change (12 + 1) with 13 in H13. rewrite daysBeforeMonth_13 in H13.
    f_equal; lia.
Qed.

Lemma dateToDays_consecutive_witness :
  exists a, dateToDays 2024 2 29 = Some a /\
            (29 = getDaysInMonth 2 2024 -> 2 < 12 ->
             dateToDays 2024 (2 + 1) 1 = Some (a + 1)).
Proof.
  destruct (dateToDays_consecutive 2024 2 29) as [a [Ha [_ [H _]]]];
    [lia | lia | vm_compute; split; congruence |].
  exists a; split; assumption.
Defined.

(** ** Months outside 1..12 *)

Lemma fold_dateToDays_step_None (year : Z) (months : list Z) :
  fold_left (dateToDays_step year) months None = None.
Proof. induction months as [| m months IH]; [reflexivity | exact IH]. Qed.

(** X5. [dateToDays] does not check its month: a month of 14 or more makes
    the loop read [MONTH_DAYS[12]], past the end of the table; a month of 0
    is treated like January; month 13 is January of the next year. *)
Theorem dateToDays_month_edges (y month d : Z) :
  (14 <= month -> dateToDays y month d = None) /\
  (month <= 1 -> dateToDays y month d = dateToDays y 1 d) /\
  (1970 <= y <= 65534 -> 1 <= d <= 256 ->
   dateToDays y 13 d = dateToDays (y + 1) 1 d).
Proof.
  split; [| split].
  - intros Hm. unfold dateToDays, monthsBefore.
    replace (Z.to_nat (month - 1)) with (12 + S (Z.to_nat (month - 14)))%nat by lia.
    rewrite seq_app, map_app, fold_left_app.
    rewrite fold_dateToDays_step;
      [| intros k Hk; apply in_map_iff in Hk as [i [<- Hi]];
         apply in_seq in Hi; lia | apply u32_range].
    cbn [seq map fold_left Nat.add].
    change (dateToDays_step y (Some _) (Z.of_nat 13)) with (@None Z).
    rewrite fold_dateToDays_step_None. reflexivity.
  - intros Hm. unfold dateToDays, monthsBefore.
    replace (Z.to_nat (month - 1)) with 0%nat by lia. reflexivity.
  - intros Hy Hd. rewrite !dateToDays_in_range by lia.
    rewrite daysToYear_succ, daysBeforeMonth_13, daysBeforeMonth_1.
    f_equal; ring.
Qed.

(** ** Fields beyond their calendar range *)

(** X6. [dateToMs] does not check its fields either: 24 more hours are one
    more day, 60 more minutes one more hour, 60 more seconds one more
    minute, as long as each field stays a [uint8_t]. *)
Theorem dateToMs_rollover (y m d h mi s : Z) :
  1970 <= y <= 65535 ->
  1 <= m <= 13 ->
  1 <= d <= 254 ->
  0 <= h <= 231 ->
  0 <= mi <= 195 ->
  0 <= s <= 195 ->
  dateToMs y m d (h + 24) mi s = dateToMs y m (d + 1) h mi s /\
  dateToMs y m d h (mi + 60) s = dateToMs y m d (h + 1) mi s /\
  dateToMs y m d h mi (s + 60) = dateToMs y m d h (mi + 1) s.
Proof.
  intros Hy Hm Hd Hh Hmi Hs.
  rewrite !dateToMs_in_range by lia.
  repeat split; f_equal; ring.
Qed.

Lemma dateToMs_rollover_witness :
  dateToMs 2024 12 31 (0 + 24) 0 0 = dateToMs 2024 12 (31 + 1) 0 0 0.
Proof.
  apply (dateToMs_rollover 2024 12 31 0 0 0); lia.
Defined.

(** ** The year search *)

Lemma yearFromDays_mono (days days' Y Y' : Z) :
  days <= days' ->
  yearFromDays days = Some Y -> yearFromDays days' = Some Y' -> Y <= Y'.
Proof.
  intros Hle E E'.
  destruct (yearFromDays_total days) as [Y1 [E1 [HY1 [HL1 HR1]]]].
  destruct (yearFromDays_total days') as [Y2 [E2 [HY2 [HL2 HR2]]]].
  rewrite E1 in E; injection E as <-. rewrite E2 in E'; injection E' as <-.
  destruct (Z.le_gt_cases Y1 Y2) as [Hok | Hgt]; [exact Hok | exfalso].
  destruct HL1 as [HL1 | HL1]; [lia |].
  destruct HR2 as [HR2 | HR2]; [lia |].
  pose proof (daysToYear_mono (Y2 + 1) Y1 ltac:(lia)). lia.
Qed.

(** X7. [yearFromDays] returns for every day count, and always a year of
    1970..2500: 1970 below day 365, 2500 from January 1st 2500 on (day
    193579), and in between the year whose January 1st is the last one at or
    before the day; it is monotone. *)
Theorem yearFromDays_clamps (days : Z) :
  exists Y, yearFromDays days = Some Y /\
    1970 <= Y <= 2500 /\
    (days < 365 -> Y = 1970) /\
    (193579 <= days -> Y = 2500) /\
    dateToDays 2500 1 1 = Some 193579 /\
    (0 <= days < 193944 ->
     exists a b, dateToDays Y 1 1 = Some a /\ dateToDays (Y + 1) 1 1 = Some b /\
                 a <= days < b) /\
    (forall days' Y', days <= days' -> yearFromDays days' = Some Y' -> Y <= Y').
Proof.
  destruct (yearFromDays_total days) as [Y [E [HY [HL HR]]]].
  exists Y. split; [exact E |]. split; [exact HY |].
  assert (H1971 : daysToYear 1971 = 365) by reflexivity.
  assert (H2500 : daysToYear 2500 = 193579) by reflexivity.
  assert (H2501 : daysToYear 2501 = 193944) by reflexivity.
  assert (H1970 : daysToYear 1970 = 0) by reflexivity.
  split; [| split; [| split; [| split]]].
  - intros Hlt. destruct HL as [HL | HL]; [exact HL |].
    pose proof (daysToYear_mono 1971 Y). lia.
  - intros Hge. destruct HR as [HR | HR]; [exact HR |].
    pose proof (daysToYear_mono (Y + 1) 2500). lia.
  - reflexivity.
  - intros Hr. exists (daysToYear Y), (daysToYear (Y + 1)).
    rewrite !dateToDays_in_range by lia. rewrite !daysBeforeMonth_1.
    split; [f_equal; ring | split; [f_equal; ring |]].
    split.
    + destruct HL as [-> | HL]; lia.
    + destruct HR as [-> | HR]; [change (2500 + 1) with 2501; lia | lia].
  - intros days' Y' Hle E'. exact (yearFromDays_mono days days' Y Y' Hle E E').
Qed.

(** ** Decomposition of an arbitrary timestamp *)

(** Every day of a year lies in one of its months. *)
Lemma month_of_day (y dr : Z) :
  0 <= dr < 365 + isLeapYear y ->
  exists m r, 1 <= m <= 12 /\ 0 <= r < getDaysInMonth m y /\
              dr = daysBeforeMonth y m + r.
Proof.
  intros Hdr.
  assert (H : forall n : nat, (n <= 12)%nat ->
            dr < daysBeforeMonth y (1 + Z.of_nat n) ->
            exists m r, 1 <= m <= 12 /\ 0 <= r < getDaysInMonth m y /\
                        dr = daysBeforeMonth y m + r).
  { induction n as [| n IH]; intros Hn Hlt.
    - change (1 + Z.of_nat 0) with 1 in Hlt. rewrite daysBeforeMonth_1 in Hlt. lia.
    - replace (1 + Z.of_nat (S n)) with (1 + Z.of_nat n + 1) in Hlt by lia.
      rewrite daysBeforeMonth_succ in Hlt by lia.
      destruct (Z.lt_ge_cases dr (daysBeforeMonth y (1 + Z.of_nat n))) as [C | C].
      + apply IH; [lia | exact C].
      + exists (1 + Z.of_nat n), (dr - daysBeforeMonth y (1 + Z.of_nat n)).
        repeat split; lia. }
  apply (H 12%nat); [lia |].
  change (1 + Z.of_nat 12) with 13. rewrite daysBeforeMonth_13. lia.
Qed.

(** X8. For every instant from the epoch to the end of the year 2500,
    [toTimeStruct] returns a calendar date and time of day with every field
    in its range, the weekday of [getWeekday], and [dateToMs] composes the
    fields back into the instant, the milliseconds apart. *)
Theorem toTimeStruct_decodes (t : Z) :
  0 <= t < 16756761600000 ->
  dateToMs 2501 1 1 0 0 0 = Some 16756761600000 /\
  exists ts, toTimeStruct t = Some ts /\
    1970 <= year ts <= 2500 /\
    1 <= month ts <= 12 /\
    1 <= day ts <= getDaysInMonth (month ts) (year ts) /\
    0 <= hour ts <= 23 /\ 0 <= minute ts <= 59 /\ 0 <= second ts <= 59 /\
    0 <= ms ts <= 999 /\
    weekday ts = getWeekday t /\
    dateToMs (year ts) (month ts) (day ts) (hour ts) (minute ts) (second ts)
      = Some (t - ms ts).
Proof.
  intros Ht. split; [reflexivity |].
  set (D := t / 86400000). set (R := t mod 86400000).
  assert (HtDR : t = D * 86400000 + R)
    by (subst D R; Z.div_mod_to_equations; lia).
  assert (HR : 0 <= R < 86400000) by (subst R; apply Z.mod_pos_bound; lia).
  assert (HD : 0 <= D < 193944) by (subst D; Z.div_mod_to_equations; lia).
  destruct (yearFromDays_total D) as [Y [E [HY [HL HR']]]].
  assert (H1970 : daysToYear 1970 = 0) by reflexivity.
  assert (H2501 : daysToYear 2501 = 193944) by reflexivity.
  assert (Hlo : daysToYear Y <= D) by (destruct HL as [-> | HL]; lia).
  assert (Hhi : D < daysToYear (Y + 1))
    by (destruct HR' as [-> | HR']; [change (2500 + 1) with 2501; lia | lia]).
  rewrite daysToYear_succ in Hhi.
  destruct (month_of_day Y (D - daysToYear Y) ltac:(lia)) as [m [r [Hm [Hr Hdr]]]].
  pose proof (getDaysInMonth_range m Y Hm) as Hdim.
  assert (H2 : 0 <= R / 1000 < 86400) by (Z.div_mod_to_equations; lia).
  assert (H5 : 0 <= R / 1000 / 3600 < 24) by (Z.div_mod_to_equations; lia).
  pose proof (Z.mod_pos_bound R 1000 ltac:(lia)) as H1.
  pose proof (Z.mod_pos_bound (R / 1000) 60 ltac:(lia)) as H3.
  pose proof (Z.mod_pos_bound (R / 1000 / 60) 60 ltac:(lia)) as H4.
  eexists. split.
  { rewrite HtDR. apply (toTimeStruct_of_parts D R Y m r); try assumption; lia. }
  cbn [year month day hour minute second ms weekday].
  repeat (split; [lia |]).
  split.
  - unfold getWeekday, getWeekdayFromDays. fold D.
    rewrite (u32_small D), (u32_small (D + 4)) by lia.
    pose proof (Z.mod_pos_bound (D + 4) 7 ltac:(lia)).
    symmetry; apply u8_small; lia.
  - rewrite dateToMs_in_range by lia. f_equal.
    replace (r + 1 - 1) with r by ring.
    replace (daysToYear Y + daysBeforeMonth Y m + r) with D by lia.
    rewrite HtDR. clear - HR. Z.div_mod_to_equations. lia.
Qed.

Lemma toTimeStruct_decodes_witness :
  exists ts, toTimeStruct 1710054000123 = Some ts /\
             dateToMs (year ts) (month ts) (day ts) (hour ts) (minute ts) (second ts)
             = Some (1710054000123 - ms ts).
Proof.
  destruct (toTimeStruct_decodes 1710054000123 ltac:(lia))
    as [_ [ts [H1 [_ [_ [_ [_ [_ [_ [_ [_ H2]]]]]]]]]]].
  exists ts; split; assumption.
Defined.

(** ** Past the year 2500 *)

(** Once the days that remain are those of a whole year or more, the month
    loop runs through the twelve months and reads [MONTH_DAYS[12]]. *)
Lemma toTimeStruct_loop_overrun (y : Z) (n : nat) :
  forall k fuel dr,
  1 <= k -> k + Z.of_nat n = 13 ->
  daysBeforeMonth y 13 - daysBeforeMonth y k <= dr < 4294967296 ->
  toTimeStruct_loop fuel y k dr = None.
Proof.
  induction n as [| n IH]; intros k fuel dr Hk Hkn Hdr.
  - assert (k = 13) by lia; subst k.
    destruct fuel; reflexivity.
  - rewrite toTimeStruct_loop_unfold by lia.
    pose proof (daysBeforeMonth_le y n (k + 1) ltac:(lia) ltac:(lia)) as Hle.
    replace (k + 1 + Z.of_nat n) with 13 in Hle by lia.
    rewrite daysBeforeMonth_succ in Hle by lia.
    pose proof (getDaysInMonth_range k y ltac:(lia)) as Hdk.
    destruct (Z.geb_spec dr (getDaysInMonth k y)); [| lia].
    destruct fuel as [| fuel]; [reflexivity |].
    rewrite u8_small, u32_small by lia.
    apply IH; try lia.
    rewrite daysBeforeMonth_succ by lia. lia.
Qed.

(** X9. For an instant from 2501-01-01 on (and a day count that fits 32
    bits), [toTimeStruct] has no defined result: [yearFromDays] stops at
    2500, a year or more of days remains, and the month loop reads past the
    end of [MONTH_DAYS]. *)
Theorem toTimeStruct_past_2500 (t : Z) :
  16756761600000 <= t < 371085174374400000 ->
  yearFromMs t = Some 2500 /\ toTimeStruct t = None.
Proof.
  intros Ht.
  set (D := t / 86400000).
  assert (HD : 193944 <= D < 4294967296) by (subst D; Z.div_mod_to_equations; lia).
  assert (H2500 : daysToYear 2500 = 193579) by reflexivity.
  assert (H2501 : daysToYear 2501 = 193944) by reflexivity.
  assert (Hyear : yearFromDays D = Some 2500).
  { destruct (yearFromDays_total D) as [Y [E [HY [_ HR]]]].
    rewrite E; f_equal. destruct HR as [HR | HR]; [exact HR |].
    pose proof (daysToYear_mono (Y + 1) 2501 ltac:(lia)). lia. }
  split.
  - unfold yearFromMs. fold D. rewrite u32_small by lia. exact Hyear.
  - unfold toTimeStruct. fold D. rewrite (u32_small D) by lia.
    rewrite Hyear. cbn [obind].
    rewrite yearStart_eq by lia. rewrite H2500.
    rewrite (u32_small (D - 193579)) by lia.
    rewrite (toTimeStruct_loop_overrun 2500 12); try lia; [reflexivity |].
    rewrite daysBeforeMonth_13, daysBeforeMonth_1.
    change (isLeapYear 2500) with 0. lia.
Qed.

Lemma toTimeStruct_past_2500_witness :
  toTimeStruct 16756761600000 = None.
Proof.
  apply (toTimeStruct_past_2500 16756761600000). lia.
Defined.

(* ================================================================== *)
(** * Further properties: DST rule evaluator *)
(* ================================================================== *)

(** ** The day that [getDstSwitchDay] selects *)

Section ScanResults.

Variable target : Z.
Hypothesis Htarget : 0 <= target <= 6.

(** The forward scan advances the day by the distance to the target. *)
Lemma scanForward_result (n : nat) :
  forall wd sd d, 0 <= wd <= 6 -> 0 <= sd ->
  sd + (target - wd) mod 7 < 256 ->
  scanForward n wd sd target = Some d -> d = sd + (target - wd) mod 7.
Proof.
  induction n as [| n IH]; intros wd sd d Hwd Hsd Hb;
    cbn [scanForward]; destruct (Z.eqb_spec wd target) as [-> | Hne]; cbn [negb];
    try discriminate;
    try (intros H; injection H as <-; rewrite Z.sub_diag; cbn; lia).
  rewrite forward_weekday by exact Hwd.
  pose proof (Z.mod_pos_bound (wd + 1) 7 ltac:(lia)) as Hw.
  assert (Hstep : (target - (wd + 1) mod 7) mod 7 = (target - wd) mod 7 - 1)
    by (Z.div_mod_to_equations; lia).
  assert (Hpos : 0 <= (target - (wd + 1) mod 7) mod 7)
    by (apply Z.mod_pos_bound; lia).
  rewrite u8_small by lia.
  intros H. apply IH in H; lia.
Qed.

(** The backward scan moves the day back by the distance to the target. *)
Lemma scanBackward_result (n : nat) :
  forall wd sd d, 0 <= wd <= 6 ->
  (wd - target) mod 7 <= sd < 256 ->
  scanBackward n wd sd target = Some d -> d = sd - (wd - target) mod 7.
Proof.
  induction n as [| n IH]; intros wd sd d Hwd Hb;
    cbn [scanBackward]; destruct (Z.eqb_spec wd target) as [-> | Hne]; cbn [negb];
    try discriminate;
    try (intros H; injection H as <-; rewrite Z.sub_diag; cbn; lia).
  rewrite backward_weekday by exact Hwd.
  pose proof (Z.mod_pos_bound (wd + 6) 7 ltac:(lia)) as Hw.
  assert (Hstep : ((wd + 6) mod 7 - target) mod 7 = (wd - target) mod 7 - 1)
    by (Z.div_mod_to_equations; lia).
  assert (Hpos : 0 <= ((wd + 6) mod 7 - target) mod 7)
    by (apply Z.mod_pos_bound; lia).
  rewrite u8_small by lia.
  intros H. apply IH in H; lia.
Qed.

End ScanResults.

(** From 1970 on [getDstSwitchDay] returns a day whose day number has the
    weekday of the rule, inside the week that the selector names. *)
Lemma getDstSwitchDay_spec (y m : Z) (tz : TimezoneDefinition) (isStart : bool) :
  1970 <= y <= 65535 ->
  1 <= m <= 12 ->
  0 <= dst_weekday tz <= 6 ->
  let N := if isStart then dst_start_week tz else dst_end_week tz in
  N <= 36 ->
  exists d, getDstSwitchDay y m tz isStart = Some d /\
    (daysToYear y + daysBeforeMonth y m + (d - 1) + 4) mod 7 = dst_weekday tz /\
    (1 <= N -> 7 * (N - 1) < d <= 7 * N) /\
    (N <= 0 -> getDaysInMonth m y - 7 < d <= getDaysInMonth m y).
Proof.
  intros Hy Hm Hwd N HN.
  pose proof (getDaysInMonth_range m y Hm) as Hdim.
  pose proof (daysToYear_bounds_u16 y ltac:(lia)) as Hdy.
  pose proof (daysBeforeMonth_range y m ltac:(lia)) as Hdb.
  unfold getDstSwitchDay, getDstSwitchDay_fuel.
  rewrite dateToDays_in_range by lia. cbn [obind].
  replace (daysToYear y + daysBeforeMonth y m + (1 - 1))
    with (daysToYear y + daysBeforeMonth y m) by ring.
  set (D1 := daysToYear y + daysBeforeMonth y m) in *.
  assert (Hfw : getWeekdayFromDays D1 = (D1 + 4) mod 7).
  { unfold getWeekdayFromDays. rewrite u32_small by lia.
    pose proof (Z.mod_pos_bound (D1 + 4) 7 ltac:(lia)). apply u8_small; lia. }
  pose proof (getWeekdayFromDays_range D1) as Hfwr.
  fold N. destruct (Z.gtb_spec N 0) as [Hpos | Hneg].
  - pose proof (Z.mod_pos_bound (dst_weekday tz - getWeekdayFromDays D1) 7 ltac:(lia))
      as Hdist.
    destruct (scanForward_exits (dst_weekday tz) SCAN_FUEL Hwd _ 1 Hfwr
                ltac:(unfold SCAN_FUEL; lia)) as [sd Hsd].
    rewrite Hsd. cbn [obind].
    apply scanForward_result in Hsd; try lia. subst sd.
    rewrite u8_small by lia.
    eexists; split; [reflexivity |].
    rewrite Hfw in *. split; [| split; [intros _ | intros ?]]; try lia.
    clear - Hdist Hwd. Z.div_mod_to_equations. lia.
  - pose proof (lastWeekday_range _ _ Hfwr Hdim) as Hlw.
    assert (Elw : u8 (Z.rem (getWeekdayFromDays D1 + getDaysInMonth m y - 1) 7)
                  = (getWeekdayFromDays D1 + getDaysInMonth m y - 1) mod 7).
    { rewrite Z.rem_mod_nonneg by lia.
      pose proof (Z.mod_pos_bound (getWeekdayFromDays D1 + getDaysInMonth m y - 1) 7
                    ltac:(lia)).
      apply u8_small; lia. }
    rewrite Elw in *.
    set (lw := (getWeekdayFromDays D1 + getDaysInMonth m y - 1) mod 7) in *.
    pose proof (Z.mod_pos_bound (lw - dst_weekday tz) 7 ltac:(lia)) as Hdist.
    destruct (scanBackward_exits (dst_weekday tz) SCAN_FUEL Hwd lw
                (getDaysInMonth m y) Hlw ltac:(unfold SCAN_FUEL; lia)) as [d Hd].
    exists d. split; [exact Hd |].
    apply scanBackward_result in Hd; try lia. subst d.
    split; [| split; [intros ? | intros _]]; try lia.
    subst lw. rewrite Hfw in *. clear - Hdist Hdim Hwd. Z.div_mod_to_equations. lia.
Qed.

(** The weekday of a date is that of its day number. *)
Lemma weekday_of_date (y m d : Z) :
  1970 <= y <= 65535 -> 1 <= m <= 12 -> 1 <= d <= 256 ->
  option_map getWeekdayFromDays (dateToDays y m d)
  = Some ((daysToYear y + daysBeforeMonth y m + (d - 1) + 4) mod 7).
Proof.
  intros Hy Hm Hd.
  pose proof (daysToYear_bounds_u16 y ltac:(lia)) as Hdy.
  pose proof (daysBeforeMonth_range y m ltac:(lia)) as Hdb.
  rewrite dateToDays_in_range by lia. cbn [option_map]. f_equal.
  unfold getWeekdayFromDays. rewrite u32_small by lia.
  match goal with |- u8 (?x mod 7) = _ =>
    pose proof (Z.mod_pos_bound x 7 ltac:(lia)) end.
  apply u8_small; lia.
Qed.

(** X10. For a positive week-occurrence [N] (up to 36, so that the day
    stays a [uint8_t]) [getDstSwitchDay] returns the [N]-th day of the month
    that falls on the weekday of the rule: the one day of the days
    [7(N-1)+1 .. 7N] with that weekday, a day of the month when [N <= 4]. *)
Theorem getDstSwitchDay_nth_occurrence (y m : Z) (tz : TimezoneDefinition)
    (isStart : bool) :
  1970 <= y <= 65535 ->
  1 <= m <= 12 ->
  0 <= dst_weekday tz <= 6 ->
  let N := if isStart then dst_start_week tz else dst_end_week tz in
  1 <= N <= 36 ->
  exists d, getDstSwitchDay y m tz isStart = Some d /\
    7 * (N - 1) < d <= 7 * N /\
    option_map getWeekdayFromDays (dateToDays y m d) = Some (dst_weekday tz) /\
    (N <= 4 -> d <= getDaysInMonth m y).
Proof.
  intros Hy Hm Hwd N HN.
  destruct (getDstSwitchDay_spec y m tz isStart Hy Hm Hwd ltac:(fold N; lia))
    as [d [Hd [Hw [Hf _]]]].
  fold N in Hf. specialize (Hf ltac:(lia)).
  pose proof (getDaysInMonth_range m y Hm) as Hdim.
  exists d. split; [exact Hd |]. split; [exact Hf |].
  split; [| lia].
  rewrite weekday_of_date by lia. f_equal. exact Hw.
Qed.

Lemma getDstSwitchDay_nth_occurrence_witness :
  exists d, getDstSwitchDay 2024 3 tdEST true = Some d /\
    7 * (2 - 1) < d <= 7 * 2 /\
    option_map getWeekdayFromDays (dateToDays 2024 3 d) = Some 0 /\
    (2 <= 4 -> d <= getDaysInMonth 3 2024).
Proof.
  apply (getDstSwitchDay_nth_occurrence 2024 3 tdEST true); cbn; lia.
Defined.

(** X11. For a week-occurrence of zero or less [getDstSwitchDay] returns
    the last day of the month that falls on the weekday of the rule: the
    one day of the last seven days of the month with that weekday. *)
Theorem getDstSwitchDay_last_occurrence (y m : Z) (tz : TimezoneDefinition)
    (isStart : bool) :
  1970 <= y <= 65535 ->
  1 <= m <= 12 ->
  0 <= dst_weekday tz <= 6 ->
  (if isStart then dst_start_week tz else dst_end_week tz) <= 0 ->
  exists d, getDstSwitchDay y m tz isStart = Some d /\
    getDaysInMonth m y - 7 < d <= getDaysInMonth m y /\
    option_map getWeekdayFromDays (dateToDays y m d) = Some (dst_weekday tz).
Proof.
  intros Hy Hm Hwd HN.
  destruct (getDstSwitchDay_spec y m tz isStart Hy Hm Hwd ltac:(lia))
    as [d [Hd [Hw [_ Hl]]]].
  specialize (Hl HN).
  pose proof (getDaysInMonth_range m y Hm) as Hdim.
  exists d. split; [exact Hd |]. split; [exact Hl |].
  rewrite weekday_of_date by lia. f_equal. exact Hw.
Qed.

Lemma getDstSwitchDay_last_occurrence_witness :
  exists d, getDstSwitchDay 2023 12 tdDecemberEnd false = Some d /\
    getDaysInMonth 12 2023 - 7 < d <= getDaysInMonth 12 2023 /\
    option_map getWeekdayFromDays (dateToDays 2023 12 d) = Some 0.
Proof.
  apply (getDstSwitchDay_last_occurrence 2023 12 tdDecemberEnd false); cbn; lia.
Defined.

(** ** Transitions seen on the local clock *)

(** The local instant of a switch decomposes into the year, the month, the
    switch day, the switch hour and the weekday of the rule. *)
Lemma local_switch_instant (y m h : Z) (tz : TimezoneDefinition) (isStart : bool) :
  1970 <= y <= 2500 ->
  1 <= m <= 12 ->
  0 <= dst_weekday tz <= 6 ->
  (if isStart then dst_start_week tz else dst_end_week tz) <= 4 ->
  0 <= h <= 23 ->
  exists d L, getDstSwitchDay y m tz isStart = Some d /\
    dateToMs y m d h 0 0 = Some L /\
    0 <= L < 2 ^ 64 /\
    toTimeStruct L = Some (mkTime y m d h 0 0 0 (dst_weekday tz)).
Proof.
  intros Hy Hm Hwd HN Hh.
  destruct (getDstSwitchDay_spec y m tz isStart ltac:(lia) Hm Hwd ltac:(lia))
    as [d [Hd [Hw [Hf Hl]]]].
  pose proof (getDaysInMonth_range m y Hm) as Hdim.
  assert (Hday : 1 <= d <= getDaysInMonth m y).
  { destruct (Z.le_gt_cases 1 (if isStart then dst_start_week tz else dst_end_week tz))
      as [C | C]; [specialize (Hf C) | specialize (Hl ltac:(lia))]; lia. }
  pose proof (daysToYear_bounds y ltac:(lia)) as Hdy.
  pose proof (daysBeforeMonth_range y m ltac:(lia)) as Hdb.
  exists d, ((daysToYear y + daysBeforeMonth y m + (d - 1)) * 86400000
             + h * 3600000 + 0 * 60000 + 0 * 1000).
  split; [exact Hd |].
  split; [apply dateToMs_in_range; lia |].
  split; [change (2 ^ 64) with 18446744073709551616; lia |].
  replace ((daysToYear y + daysBeforeMonth y m + (d - 1)) * 86400000
           + h * 3600000 + 0 * 60000 + 0 * 1000)
    with ((daysToYear y + daysBeforeMonth y m + (d - 1)) * 86400000 + h * 3600000)
    by ring.
  rewrite (toTimeStruct_of_parts _ (h * 3600000) y m (d - 1)) by lia.
  rewrite Hw.
  assert (E1 : h * 3600000 / 1000 = h * 3600) by (Z.div_mod_to_equations; lia).
  assert (E0 : (h * 3600000) mod 1000 = 0) by (Z.div_mod_to_equations; lia).
  rewrite E0, E1.
  assert (E2 : (h * 3600) mod 60 = 0) by (Z.div_mod_to_equations; lia).
  assert (E3 : h * 3600 / 60 = h * 60) by (Z.div_mod_to_equations; lia).
  assert (E4 : (h * 60) mod 60 = 0) by (Z.div_mod_to_equations; lia).
  assert (E5 : h * 3600 / 3600 = h) by (Z.div_mod_to_equations; lia).
  rewrite E2, E3, E4, E5.
  replace (d - 1 + 1) with d by ring. reflexivity.
Qed.

(** X12. For the years 1970..2500, a valid rule with week selectors up to 4
    and switch hours 0..23: the start transition, moved to local standard
    time, and the end transition, moved to local DST time, each decompose
    into the year, the month of the rule, the selected switch day, the
    switch hour at :00:00.000 and the weekday of the rule. *)
Theorem transitions_on_local_clock (y : Z) (tz : TimezoneDefinition) :
  valid_dst_rule tz ->
  1970 <= y <= 2500 ->
  dst_start_week tz <= 4 ->
  dst_end_week tz <= 4 ->
  0 <= dst_start_hour tz <= 23 ->
  0 <= dst_end_hour tz <= 23 ->
  exists s e ds de,
    computeDstStartMs y tz = Some s /\
    computeDstEndMs y tz = Some e /\
    getDstSwitchDay y (dst_start_month tz) tz true = Some ds /\
    getDstSwitchDay y (dst_end_month tz) tz false = Some de /\
    toTimeStruct (u64 (s + offset_min tz * 60000))
      = Some (mkTime y (dst_start_month tz) ds (dst_start_hour tz) 0 0 0
                     (dst_weekday tz)) /\
    toTimeStruct (u64 (e + offset_dst_min tz * 60000))
      = Some (mkTime y (dst_end_month tz) de (dst_end_hour tz) 0 0 0
                     (dst_weekday tz)).
Proof.
  intros [Hsm Hem Hwd] Hy Hsw Hew Hsh Heh.
  destruct (local_switch_instant y (dst_start_month tz) (dst_start_hour tz) tz true
              Hy Hsm Hwd Hsw Hsh) as [ds [Ls [Hds [HLs [HLsr Hts]]]]].
  destruct (local_switch_instant y (dst_end_month tz) (dst_end_hour tz) tz false
              Hy Hem Hwd Hew Heh) as [de [Le [Hde [HLe [HLer Hte]]]]].
  exists (u64 (Ls - offset_min tz * 60000)), (u64 (Le - offset_dst_min tz * 60000)),
         ds, de.
  unfold computeDstStartMs, computeDstEndMs.
  rewrite Hds, Hde. cbn [obind]. rewrite HLs, HLe. cbn [obind].
  rewrite !u64_sub_add by assumption.
  repeat split; assumption.
Qed.

Lemma transitions_on_local_clock_witness :
  exists s e ds de,
    computeDstStartMs 2024 tdEST = Some s /\
    computeDstEndMs 2024 tdEST = Some e /\
    getDstSwitchDay 2024 3 tdEST true = Some ds /\
    getDstSwitchDay 2024 11 tdEST false = Some de /\
    toTimeStruct (u64 (s + -300 * 60000)) = Some (mkTime 2024 3 ds 2 0 0 0 0) /\
    toTimeStruct (u64 (e + -240 * 60000)) = Some (mkTime 2024 11 de 2 0 0 0 0).
Proof.
  apply (transitions_on_local_clock 2024 tdEST);
    [constructor; cbn; lia | lia | cbn; lia | cbn; lia | cbn; lia | cbn; lia].
Defined.

(* ================================================================== *)
(** * Further properties: offset resolver *)
(* ================================================================== *)

(** ** The year of an instant *)

Lemma yearFromMs_bounds (t Y : Z) :
  0 <= t < 16756761600000 ->
  yearFromMs t = Some Y ->
  1970 <= Y <= 2500 /\
  daysToYear Y * 86400000 <= t < daysToYear (Y + 1) * 86400000.
Proof.
  intros Ht HY. unfold yearFromMs in HY.
  assert (HD : 0 <= t / 86400000 < 193944) by (Z.div_mod_to_equations; lia).
  rewrite u32_small in HY by lia.
  destruct (yearFromDays_total (t / 86400000)) as [Y' [E [HY' [HL HR]]]].
  rewrite E in HY; injection HY as ->.
  assert (H1970 : daysToYear 1970 = 0) by reflexivity.
  assert (H2501 : daysToYear 2501 = 193944) by reflexivity.
  assert (Hlo : daysToYear Y <= t / 86400000) by (destruct HL as [-> | HL]; lia).
  assert (Hhi : t / 86400000 < daysToYear (Y + 1))
    by (destruct HR as [-> | HR]; [change (2500 + 1) with 2501; lia | lia]).
  split; [exact HY' |]. Z.div_mod_to_equations. lia.
Qed.

Lemma dateToMs_jan1 (y : Z) :
  1970 <= y <= 65535 ->
  dateToMs y 1 1 0 0 0 = Some (daysToYear y * 86400000).
Proof.
  intros Hy. rewrite dateToMs_in_range by lia.
  rewrite daysBeforeMonth_1. f_equal; ring.
Qed.

(** ** The resolver of a valid rule *)

(** X13. For a valid DST rule [getOffsetForUtc] returns from every cache:
    on a hit the cached offset, the cache unchanged; on a miss one of the
    two offsets of the rule, cached together with an interval whose two
    bounds are transition instants of the rule. *)
Theorem getOffsetForUtc_total (tz : TimezoneDefinition) (c : DstCache) (t : Z) :
  valid_dst_rule tz ->
  exists o c', getOffsetForUtc t tz c = Some (o, c') /\
    (cacheHit t c = true -> o = current_offset c /\ c' = c) /\
    (cacheHit t c = false ->
       (o = offset_min tz \/ o = offset_dst_min tz) /\
       current_offset c' = o /\
       isTransition tz (valid_from_ms c') /\
       isTransition tz (valid_until_ms c')).
Proof.
  intros Hv. unfold getOffsetForUtc.
  destruct (Z.eqb_spec (dst_start_month tz) 0) as [E | _];
    [destruct Hv as [Hsm _ _]; lia |].
  destruct (cacheHit t c) eqn:Hhit.
  - exists (current_offset c), c. repeat split; try discriminate; reflexivity.
  - unfold missPeriod, computeDstTransitions, yearFromMs.
    destruct (yearFromDays_total (u32 (t / 86400000))) as [y [-> [Hy _]]].
    cbn [obind].
    assert (U : forall x, is_u16 (u16 x))
      by (intros x; unfold is_u16, u16; apply Z.mod_pos_bound; lia).
    assert (Uy : is_u16 y) by (unfold is_u16; change (2 ^ 16) with 65536; lia).
    destruct (computeDstStartMs_defined tz Hv y) as [s [Hs _]].
    destruct (computeDstEndMs_defined tz Hv y) as [e [He _]].
    destruct (computeDstStartMs_defined tz Hv (u16 (y - 1))) as [sp [Hsp _]].
    destruct (computeDstStartMs_defined tz Hv (u16 (y + 1))) as [sn [Hsn _]].
    destruct (computeDstEndMs_defined tz Hv (u16 (y - 1))) as [ep [Hep _]].
    destruct (computeDstEndMs_defined tz Hv (u16 (y + 1))) as [en [Hen _]].
    rewrite Hs, He, Hsp, Hsn, Hep, Hen. cbn [obind].
    assert (Ts : isTransition tz s) by (exists y; auto).
    assert (Te : isTransition tz e) by (exists y; auto).
    assert (Tsp : isTransition tz sp) by (exists (u16 (y - 1)); auto).
    assert (Tsn : isTransition tz sn) by (exists (u16 (y + 1)); auto).
    assert (Tep : isTransition tz ep) by (exists (u16 (y - 1)); auto).
    assert (Ten : isTransition tz en) by (exists (u16 (y + 1)); auto).
    destruct (s <? e); destruct (t <? s); destruct (t <? e); cbn [obind];
      eexists; eexists; (split; [reflexivity |]);
      (split; [discriminate |]); intros _;
      cbn [current_offset valid_from_ms valid_until_ms]; auto.
Qed.

Lemma getOffsetForUtc_total_witness :
  exists o c', getOffsetForUtc 1719792000000 tdEST emptyCache = Some (o, c').
Proof.
  destruct (getOffsetForUtc_total tdEST emptyCache 1719792000000) as [o [c' [H _]]];
    [constructor; cbn; lia |].
  exists o, c'. exact H.
Defined.

(** ** A cache hit against a lookup from an empty cache *)

Section RegularYears.

Variable tz : TimezoneDefinition.
Hypothesis Hvalid : valid_dst_rule tz.

Lemma cold_lookup_in_year (t Y s e : Z) :
  1970 <= Y <= 2500 ->
  daysToYear Y * 86400000 <= t < daysToYear (Y + 1) * 86400000 ->
  computeDstStartMs Y tz = Some s ->
  computeDstEndMs Y tz = Some e ->
  option_map fst (getOffsetForUtc t tz emptyCache) = Some (seasonOffset tz t s e).
Proof.
  intros HY Ht Hs He.
  apply (getOffsetForUtc_empty tz Hvalid t Y s e); try assumption.
  apply yearFromMs_of_range; assumption.
Qed.

Lemma seasonsInYear_bounds (north : bool) (y : Z) :
  1970 <= y <= 2500 ->
  seasonsInYear north tz y ->
  exists s e, computeDstStartMs y tz = Some s /\ computeDstEndMs y tz = Some e /\
    if north
    then daysToYear y * 86400000 <= s /\ s < e /\ e < daysToYear (y + 1) * 86400000
    else daysToYear y * 86400000 <= e /\ e <= s /\ s < daysToYear (y + 1) * 86400000.
Proof.
  intros Hy (j0 & j1 & s & e & Hj0 & Hj1 & Hs & He & Hord).
  rewrite dateToMs_jan1 in Hj0, Hj1 by lia.
  injection Hj0 as <-. injection Hj1 as <-.
  exists s, e. auto.
Qed.

(** After a miss in a year whose transitions, like those of the two
    neighbouring years, fall inside their year, the cached interval
    contains the instant looked up, and at each of its instants a lookup
    from an empty cache gives the cached offset. *)
Lemma miss_interval_coherent (north : bool) (t0 y0 X : Z) (c0 c1 : DstCache) :
  1971 <= y0 <= 2499 ->
  daysToYear y0 * 86400000 <= t0 < daysToYear (y0 + 1) * 86400000 ->
  seasonsInYear north tz (y0 - 1) ->
  seasonsInYear north tz y0 ->
  seasonsInYear north tz (y0 + 1) ->
  cacheHit t0 c0 = false ->
  getOffsetForUtc t0 tz c0 = Some (X, c1) ->
  valid_from_ms c1 <= t0 < valid_until_ms c1 /\
  forall t, valid_from_ms c1 <= t < valid_until_ms c1 ->
            option_map fst (getOffsetForUtc t tz emptyCache) = Some X.
Proof.
  intros Hy0 Ht0 Hp Hc Hn Hmiss Hcall.
  apply seasonsInYear_bounds in Hp as (sp & ep & Hsp & Hep & Op); [| lia].
  apply seasonsInYear_bounds in Hc as (s0 & e0 & Hs0 & He0 & O0); [| lia].
  apply seasonsInYear_bounds in Hn as (sn & en & Hsn & Hen & On); [| lia].
  replace (y0 - 1 + 1) with y0 in Op by ring.
  replace (y0 + 1 + 1) with (y0 + 2) in On by ring.
  pose proof (daysToYear_mono (y0 - 1) y0 ltac:(lia)) as M1.
  pose proof (daysToYear_mono y0 (y0 + 1) ltac:(lia)) as M2.
  pose proof (daysToYear_mono (y0 + 1) (y0 + 2) ltac:(lia)) as M3.
  unfold getOffsetForUtc in Hcall.
  destruct (Z.eqb_spec (dst_start_month tz) 0) as [E | _];
    [destruct Hvalid as [Hsm _ _]; lia |].
  rewrite Hmiss in Hcall.
  unfold missPeriod, computeDstTransitions in Hcall.
  rewrite (yearFromMs_of_range t0 y0 ltac:(lia) Ht0) in Hcall.
  cbn [obind] in Hcall.
  rewrite Hs0, He0 in Hcall. cbn [obind] in Hcall.
  rewrite (u16_small (y0 - 1)), (u16_small (y0 + 1)) in Hcall by lia.
  rewrite Hsp, Hep, Hsn, Hen in Hcall.
  assert (Hcold : forall t,
            daysToYear (y0 - 1) * 86400000 <= t < daysToYear (y0 + 2) * 86400000 ->
            option_map fst (getOffsetForUtc t tz emptyCache)
            = Some (if t <? daysToYear y0 * 86400000 then seasonOffset tz t sp ep
                    else if t <? daysToYear (y0 + 1) * 86400000
                         then seasonOffset tz t s0 e0
                         else seasonOffset tz t sn en)).
  { intros t Ht.
    destruct (Z.ltb_spec t (daysToYear y0 * 86400000)).
    - apply (cold_lookup_in_year t (y0 - 1)); try assumption; try lia.
      replace (y0 - 1 + 1) with y0 by ring. lia.
    - destruct (Z.ltb_spec t (daysToYear (y0 + 1) * 86400000)).
      + apply (cold_lookup_in_year t y0); try assumption; lia.
      + apply (cold_lookup_in_year t (y0 + 1)); try assumption; try lia.
        replace (y0 + 1 + 1) with (y0 + 2) by ring. lia. }
  destruct north;
    destruct (Z.ltb_spec s0 e0); try lia;
    destruct (Z.ltb_spec t0 s0); destruct (Z.ltb_spec t0 e0); try lia;
    cbn [obind] in Hcall; injection Hcall as <- <-;
    cbn [valid_from_ms valid_until_ms current_offset];
    (split; [lia |]); intros t Ht;
    rewrite Hcold by lia; f_equal; unfold seasonOffset;
    repeat match goal with
      | |- context [?a <? ?b] => destruct (Z.ltb_spec a b)
      end; try reflexivity; lia.
Qed.

End RegularYears.

(** X14. Take a valid rule and a year [y0] of 1971..2499 such that the
    transitions of [y0] and of its two neighbours fall inside their own
    year, in the same order.  After a lookup in [y0] that missed the cache,
    the cached interval contains the instant looked up, and every instant of
    the interval gets from the cache the offset that a lookup from an empty
    cache computes for it. *)
Theorem cache_hit_agrees_with_cold_lookup (north : bool) (tz : TimezoneDefinition)
    (t0 y0 X : Z) (c0 c1 : DstCache) :
  valid_dst_rule tz ->
  0 <= t0 < 16756761600000 ->
  yearFromMs t0 = Some y0 ->
  1971 <= y0 <= 2499 ->
  seasonsInYear north tz (y0 - 1) ->
  seasonsInYear north tz y0 ->
  seasonsInYear north tz (y0 + 1) ->
  cacheHit t0 c0 = false ->
  getOffsetForUtc t0 tz c0 = Some (X, c1) ->
  cacheHit t0 c1 = true /\
  forall t, cacheHit t c1 = true ->
    getOffsetForUtc t tz c1 = Some (X, c1) /\
    option_map fst (getOffsetForUtc t tz emptyCache) = Some X.
Proof.
  intros Hv Ht0 Hy Hy0 Hp Hc Hn Hmiss Hcall.
  destruct (yearFromMs_bounds t0 y0 Ht0 Hy) as [_ Hr].
  destruct (miss_interval_coherent tz Hv north t0 y0 X c0 c1 Hy0 Hr Hp Hc Hn Hmiss Hcall)
    as [Hin Hall].
  assert (Hoff : current_offset c1 = X).
  { unfold getOffsetForUtc in Hcall.
    destruct (Z.eqb_spec (dst_start_month tz) 0) as [E | _];
      [destruct Hv as [Hsm _ _]; lia |].
    rewrite Hmiss in Hcall.
    destruct (missPeriod t0 tz) as [[[s e] c] |]; cbn [obind] in Hcall;
      [| discriminate].
    injection Hcall as <- <-. reflexivity. }
  split.
  - unfold cacheHit. apply andb_true_iff; split;
      [apply Z.geb_le | apply Z.ltb_lt]; lia.
  - intros t Hhit. split.
    + unfold getOffsetForUtc.
      destruct (Z.eqb_spec (dst_start_month tz) 0) as [E | _];
        [destruct Hv as [Hsm _ _]; lia |].
      rewrite Hhit, Hoff. reflexivity.
    + apply Hall. unfold cacheHit in Hhit.
      apply andb_true_iff in Hhit as [H1 H2].
      apply Z.geb_le in H1. apply Z.ltb_lt in H2. lia.
Qed.

Lemma seasonsInYearb_sound (north : bool) (tz : TimezoneDefinition) (y : Z) :
  seasonsInYearb north tz y = true -> seasonsInYear north tz y.
Proof.
  unfold seasonsInYearb, seasonsInYear.
  destruct (dateToMs y 1 1 0 0 0) as [j0 |]; [| discriminate].
  destruct (dateToMs (y + 1) 1 1 0 0 0) as [j1 |]; [| discriminate].
  destruct (computeDstStartMs y tz) as [s |]; [| discriminate].
  destruct (computeDstEndMs y tz) as [e |]; [| discriminate].
  intros H. exists j0, j1, s, e. repeat (split; [reflexivity |]).
  destruct north; apply andb_true_iff in H as [H H3];
    apply andb_true_iff in H as [H1 H2];
    repeat match goal with
      | H : (_ <=? _) = true |- _ => apply Z.leb_le in H
      | H : (_ <? _) = true |- _ => apply Z.ltb_lt in H
      end; auto.
Qed.

Lemma regularRuleb_sound (north : bool) (tz : TimezoneDefinition) :
  regularRuleb north tz = true -> regularRule north tz.
Proof.
  intros H y Hy. apply seasonsInYearb_sound.
  apply (Zrange_forallb _ _ _ H). lia.
Qed.

Lemma cache_hit_agrees_with_cold_lookup_witness :
  cacheHit 1704067200000 (mkCache 1699164000000 1710054000000 (-300)) = true /\
  forall t, cacheHit t (mkCache 1699164000000 1710054000000 (-300)) = true ->
    getOffsetForUtc t tdEST (mkCache 1699164000000 1710054000000 (-300))
      = Some (-300, mkCache 1699164000000 1710054000000 (-300)) /\
    option_map fst (getOffsetForUtc t tdEST emptyCache) = Some (-300).
Proof.
  apply (cache_hit_agrees_with_cold_lookup true tdEST 1704067200000 2024 (-300)
           emptyCache (mkCache 1699164000000 1710054000000 (-300))).
  - constructor; cbn; lia.
  - lia.
  - vm_compute; reflexivity.
  - lia.
  - apply seasonsInYearb_sound; vm_compute; reflexivity.
  - apply seasonsInYearb_sound; vm_compute; reflexivity.
  - apply seasonsInYearb_sound; vm_compute; reflexivity.
  - reflexivity.
  - vm_compute; reflexivity.
Defined.

(** ** The instance overload against the explicit-rule overload *)

Section CoherentInstance.

Variable north : bool.
Variable tz : TimezoneDefinition.
Hypothesis Hvalid : valid_dst_rule tz.
Hypothesis Hregular : regularRule north tz.

(** A lookup in the years 1971..2499 on a coherent cache returns what a
    lookup from an empty cache returns, and leaves a coherent cache. *)
Lemma getOffsetForUtc_coherent (c : DstCache) (t : Z) :
  cacheCoherent tz c ->
  31536000000 <= t < 16725225600000 ->
  exists o c', getOffsetForUtc t tz c = Some (o, c') /\
               option_map fst (getOffsetForUtc t tz emptyCache) = Some o /\
               cacheCoherent tz c'.
Proof.
  intros Hcoh Ht.
  assert (Hstart : (dst_start_month tz =? 0) = false)
    by (destruct Hvalid as [Hsm _ _]; apply Z.eqb_neq; lia).
  destruct (cacheHit t c) eqn:Hhit.
  - exists (current_offset c), c. split; [| split; [apply Hcoh; exact Hhit | exact Hcoh]].
    unfold getOffsetForUtc. rewrite Hstart, Hhit. reflexivity.
  - destruct (yearFromDays_total (u32 (t / 86400000))) as [y0 [Ey _]].
    fold (yearFromMs t) in Ey.
    destruct (yearFromMs_bounds t y0 ltac:(lia) Ey) as [Hy0 Hr].
    assert (H1971 : daysToYear 1971 = 365) by reflexivity.
    assert (H2500 : daysToYear 2500 = 193579) by reflexivity.
    assert (Hy : 1971 <= y0 <= 2499).
    { split.
      - destruct (Z.le_gt_cases 1971 y0) as [C | C]; [exact C | exfalso].
        pose proof (daysToYear_mono (y0 + 1) 1971 ltac:(lia)). lia.
      - destruct (Z.le_gt_cases y0 2499) as [C | C]; [exact C | exfalso].
        pose proof (daysToYear_mono 2500 y0 ltac:(lia)). lia. }
    destruct (computeDstStartMs_defined tz Hvalid y0) as [s [Hs _]].
    destruct (computeDstEndMs_defined tz Hvalid y0) as [e [He _]].
    destruct (missPeriod_spec tz Hvalid t y0 s e Ey Hs He) as [c' [Hmp _]].
    assert (Hcall : getOffsetForUtc t tz c = Some (current_offset c', c')).
    { unfold getOffsetForUtc. rewrite Hstart, Hhit, Hmp. reflexivity. }
    destruct (miss_interval_coherent tz Hvalid north t y0 (current_offset c') c c'
                Hy Hr (Hregular (y0 - 1) ltac:(lia)) (Hregular y0 ltac:(lia))
                (Hregular (y0 + 1) ltac:(lia)) Hhit Hcall) as [Hin Hall].
    exists (current_offset c'), c'. split; [exact Hcall |].
    split; [apply Hall; exact Hin |].
    intros t' Hhit'. apply Hall.
    unfold cacheHit in Hhit'. apply andb_true_iff in Hhit' as [H1 H2].
    apply Z.geb_le in H1. apply Z.ltb_lt in H2. lia.
Qed.

Lemma utcToLocalAll_coherent (ts : list Z) :
  Forall (fun t => 31536000000 <= t < 16725225600000) ts ->
  forall self, tz_ self = tz -> cacheCoherent tz (cache_ self) ->
  exists ls self', utcToLocalAll self ts = Some (ls, self') /\
    Forall2 (fun t l => utcToLocal t tz = Some l) ts ls /\
    tz_ self' = tz /\ cacheCoherent tz (cache_ self').
Proof.
  induction 1 as [| t ts Ht _ IH]; intros self Htz Hcoh.
  - exists [], self. repeat split; try assumption. constructor.
  - destruct (getOffsetForUtc_coherent (cache_ self) t Hcoh Ht)
      as [o [c' [Hcall [Hcold Hcoh']]]].
    destruct (IH (mkTranslator tz c') eq_refl Hcoh') as [ls [self' [Hrun [Hall [Htz' Hc']]]]].
    exists (u64 (t + o * 60000) :: ls), self'.
    split; [| split; [| split; assumption]].
    + cbn [utcToLocalAll]. unfold utcToLocal_self. rewrite Htz, Hcall.
      cbn [obind fst snd]. rewrite Hrun. reflexivity.
    + constructor; [| exact Hall].
      unfold utcToLocal.
      destruct (Z.eqb_spec (dst_start_month tz) 0) as [E | _];
        [destruct Hvalid as [Hsm _ _]; lia |].
      destruct (getOffsetForUtc t tz emptyCache) as [[o' c''] |]; [| discriminate].
      cbn [option_map fst] in Hcold. injection Hcold as ->. reflexivity.
Qed.

End CoherentInstance.

(** X15. After a successful [setLocalTimezone] with a valid rule whose
    transitions fall inside their own year, in the same order every year,
    any sequence of calls of the instance overload [utcToLocal(uint64_t)]
    with instants of the years 1971..2499 returns, call by call, what the
    explicit-rule overload returns for the same instant: the cache never
    changes a result. *)
Theorem instance_utcToLocal_matches_explicit (north : bool)
    (tz : TimezoneDefinition) (self0 self : TimezoneTranslator) (ts : list Z) :
  valid_dst_rule tz ->
  regularRule north tz ->
  setLocalTimezone self0 tz = (true, self) ->
  Forall (fun t => 31536000000 <= t < 16725225600000) ts ->
  dateToMs 1971 1 1 0 0 0 = Some 31536000000 /\
  dateToMs 2500 1 1 0 0 0 = Some 16725225600000 /\
  exists ls self', utcToLocalAll self ts = Some (ls, self') /\
    Forall2 (fun t l => utcToLocal t tz = Some l) ts ls /\
    tz_ self' = tz.
Proof.
  intros Hv Hreg Hset Hts.
  split; [reflexivity | split; [reflexivity |]].
  assert (Hself : self = mkTranslator tz emptyCache).
  { unfold setLocalTimezone in Hset.
    destruct (_ || _); [discriminate |]. destruct (_ && _); [discriminate |].
    injection Hset as <-. reflexivity. }
  subst self.
  destruct (utcToLocalAll_coherent north tz Hv Hreg ts Hts
              (mkTranslator tz emptyCache) eq_refl) as [ls [self' [H1 [H2 [H3 _]]]]].
  - intros t Hhit. rewrite cacheHit_empty in Hhit. discriminate.
  - exists ls, self'. auto.
Qed.

Lemma instance_utcToLocal_matches_explicit_witness :
  exists ls self',
    utcToLocalAll (mkTranslator tdEST emptyCache)
      [1704067200000; 1719792000000; 1705000000000; 1730615400000]
    = Some (ls, self') /\
    Forall2 (fun t l => utcToLocal t tdEST = Some l)
      [1704067200000; 1719792000000; 1705000000000; 1730615400000] ls /\
    tz_ self' = tdEST.
Proof.
  apply (instance_utcToLocal_matches_explicit true tdEST newTranslator
           (mkTranslator tdEST emptyCache)
           [1704067200000; 1719792000000; 1705000000000; 1730615400000]).
  - constructor; cbn; lia.
  - apply regularRuleb_sound; vm_compute; reflexivity.
  - reflexivity.
  - repeat constructor; lia.
Defined.

(* ================================================================== *)
(** * Further properties: translator facade *)
(* ================================================================== *)

(** ** Round trip local -> UTC -> local *)

(** X16. Take a valid DST rule and a local time [l] that is at least the
    DST shift away from the local forms of the two transitions of its year
    (so outside the spring-forward gap), with both UTC readings of [l], the
    standard one and the DST one, in that year and no 64-bit wrap-around:
    [localToUtc] returns a UTC instant and [utcToLocal] maps it back to
    [l]. *)
Theorem local_roundtrip_outside_gap (tz : TimezoneDefinition) (l y s e : Z)
    (preferDst : bool) :
  valid_dst_rule tz ->
  is_u64 l ->
  is_u64 (l - offset_min tz * 60000) ->
  is_u64 (l - offset_dst_min tz * 60000) ->
  is_u64 (s + offset_min tz * 60000) ->
  is_u64 (e + offset_dst_min tz * 60000) ->
  yearFromMs (l - offset_min tz * 60000) = Some y ->
  yearFromMs (l - offset_dst_min tz * 60000) = Some y ->
  computeDstStartMs y tz = Some s ->
  computeDstEndMs y tz = Some e ->
  shiftMs tz <= Z.abs (l - (s + offset_min tz * 60000)) ->
  shiftMs tz <= Z.abs (l - (e + offset_dst_min tz * 60000)) ->
  exists u, localToUtc l tz preferDst = Some u /\ utcToLocal u tz = Some l.
Proof.
  intros Hv Hl Hw1 Hw2 Hw3 Hw4 Hy Hyd Hs He Hfs Hfe.
  unfold shiftMs in Hfs, Hfe.
  unfold is_u64 in *. change (2 ^ 64) with 18446744073709551616 in *.
  assert (Hya : yearFromMs (u64 (l - offset_min tz * 60000)) = Some y)
    by (rewrite u64_small by lia; exact Hy).
  pose proof (localToUtc_eq tz Hv l y s e preferDst Hya Hs He) as Hloc.
  rewrite Hloc. eexists; split; [reflexivity |].
  match goal with |- utcToLocal ?u tz = _ =>
    assert (Hyu : yearFromMs u = Some y)
  end.
  { match goal with |- context [if ?b then offset_dst_min tz else _] =>
      destruct b end; rewrite u64_small by lia; assumption. }
  rewrite (utcToLocal_eq tz Hv _ y s e Hyu Hs He). f_equal.
  clear Hloc Hyu Hya Hy Hyd.
  rewrite (u64_small (s + _)), (u64_small (e + _)) by lia.
  unfold seasonOffset.
  destruct (Z.ltb_spec s e);
    match goal with |- context [?a >=? ?b] => destruct (Z.geb_spec a b) end;
    match goal with |- context [l <? ?b] => destruct (Z.ltb_spec l b) end;
    cbn [andb orb]; rewrite (u64_small (l - _)) by lia;
    repeat match goal with
      | |- context [?a <? ?b] => destruct (Z.ltb_spec a b)
      end; try lia; rewrite u64_small by lia; lia.
Qed.

Lemma local_roundtrip_outside_gap_witness :
  exists u, localToUtc 1719777600000 tdEST true = Some u /\
            utcToLocal u tdEST = Some 1719777600000.
Proof.
  apply (local_roundtrip_outside_gap tdEST 1719777600000 2024
           1710054000000 1730613600000 true).
  - constructor; cbn; lia.
  - vm_compute; split; congruence.
  - vm_compute; split; congruence.
  - vm_compute; split; congruence.
  - vm_compute; split; congruence.
  - vm_compute; split; congruence.
  - vm_compute; reflexivity.
  - vm_compute; reflexivity.
  - vm_compute; reflexivity.
  - vm_compute; reflexivity.
  - vm_compute; congruence.
  - vm_compute; congruence.
Defined.

(** ** The gap and the overlap *)

Section GapAndOverlap.

Variable tz : TimezoneDefinition.
Hypothesis Hvalid : valid_dst_rule tz.

(** The year [y] of the two UTC readings of the local time [l], and its two
    transitions. *)
Variables l y s e : Z.
Hypothesis Hl : is_u64 l.
Hypothesis Hstd : is_u64 (l - offset_min tz * 60000).
Hypothesis Hdst : is_u64 (l - offset_dst_min tz * 60000).
Hypothesis HsL : is_u64 (s + offset_min tz * 60000).
Hypothesis HeL : is_u64 (e + offset_dst_min tz * 60000).
Hypothesis Hystd : yearFromMs (l - offset_min tz * 60000) = Some y.
Hypothesis Hydst : yearFromMs (l - offset_dst_min tz * 60000) = Some y.
Hypothesis Hs : computeDstStartMs y tz = Some s.
Hypothesis He : computeDstEndMs y tz = Some e.

(** DST moves the clock forward, and the two transitions are at least the
    shift apart. *)
Hypothesis Hforward : offset_min tz < offset_dst_min tz.
Hypothesis Hapart : shiftMs tz <= Z.abs (s - e).

Lemma localToUtc_reading (preferDst : bool) :
  localToUtc l tz preferDst =
  Some (l - (if (if s <? e
                 then (l >=? s + offset_min tz * 60000) &&
                      (l <? e + offset_dst_min tz * 60000)
                 else (l >=? s + offset_min tz * 60000) ||
                      (l <? e + offset_dst_min tz * 60000))
             then offset_dst_min tz else offset_min tz) * 60000).
Proof.
  unfold is_u64 in *. change (2 ^ 64) with 18446744073709551616 in *.
  rewrite (localToUtc_eq tz Hvalid l y s e preferDst);
    [| rewrite u64_small by lia; exact Hystd | exact Hs | exact He].
  rewrite (u64_small (s + _)), (u64_small (e + _)) by lia.
  f_equal. destruct (if s <? e then _ else _); apply u64_small; lia.
Qed.

Lemma utcToLocal_of_std_reading :
  utcToLocal (l - offset_min tz * 60000) tz
  = Some (u64 (l - offset_min tz * 60000
               + seasonOffset tz (l - offset_min tz * 60000) s e * 60000)).
Proof. exact (utcToLocal_eq tz Hvalid _ y s e Hystd Hs He). Qed.

Lemma utcToLocal_of_dst_reading :
  utcToLocal (l - offset_dst_min tz * 60000) tz
  = Some (u64 (l - offset_dst_min tz * 60000
               + seasonOffset tz (l - offset_dst_min tz * 60000) s e * 60000)).
Proof. exact (utcToLocal_eq tz Hvalid _ y s e Hydst Hs He). Qed.

(** X17. A local time of the spring-forward gap, which no UTC instant has,
    is not rejected: [localToUtc] reads it with the DST offset, and
    [utcToLocal] maps the result to the local time one DST shift earlier. *)
Theorem gap_time_read_as_dst (preferDst : bool) :
  s + offset_min tz * 60000 <= l < s + offset_dst_min tz * 60000 ->
  is_u64 (l - (offset_dst_min tz * 60000 - offset_min tz * 60000)) ->
  localToUtc l tz preferDst = Some (l - offset_dst_min tz * 60000) /\
  utcToLocal (l - offset_dst_min tz * 60000) tz
  = Some (l - (offset_dst_min tz * 60000 - offset_min tz * 60000)).
Proof.
  intros Hgap Hback. unfold shiftMs in Hapart.
  rewrite localToUtc_reading, utcToLocal_of_dst_reading.
  unfold is_u64 in *. change (2 ^ 64) with 18446744073709551616 in *.
  unfold seasonOffset.
  split; f_equal;
    repeat match goal with
      | |- context [?a >=? ?b] => destruct (Z.geb_spec a b)
      | |- context [?a <? ?b] => destruct (Z.ltb_spec a b)
      end; cbn [andb orb]; try lia; rewrite u64_small by lia; lia.
Qed.

(** X18. A local time of the fall-back overlap has two UTC instants, one
    DST shift apart, and [utcToLocal] maps both to it; [localToUtc] returns
    the earlier one, read with the DST offset, whatever [preferDst] is. *)
Theorem overlap_time_read_as_dst (preferDst : bool) :
  e + offset_min tz * 60000 <= l < e + offset_dst_min tz * 60000 ->
  localToUtc l tz preferDst = Some (l - offset_dst_min tz * 60000) /\
  utcToLocal (l - offset_dst_min tz * 60000) tz = Some l /\
  utcToLocal (l - offset_min tz * 60000) tz = Some l.
Proof.
  intros Hov. unfold shiftMs in Hapart.
  rewrite localToUtc_reading, utcToLocal_of_dst_reading, utcToLocal_of_std_reading.
  unfold is_u64 in *. change (2 ^ 64) with 18446744073709551616 in *.
  unfold seasonOffset.
  repeat split; f_equal;
    repeat match goal with
      | |- context [?a >=? ?b] => destruct (Z.geb_spec a b)
      | |- context [?a <? ?b] => destruct (Z.ltb_spec a b)
      end; cbn [andb orb]; try lia; rewrite u64_small by lia; lia.
Qed.

End GapAndOverlap.

Lemma gap_time_read_as_dst_witness :
  localToUtc 1710037800000 tdEST true = Some (1710037800000 - -240 * 60000) /\
  utcToLocal (1710037800000 - -240 * 60000) tdEST
  = Some (1710037800000 - (-240 * 60000 - -300 * 60000)).
Proof.
  apply (gap_time_read_as_dst tdEST ltac:(constructor; cbn; lia)
           1710037800000 2024 1710054000000 1730613600000);
    try (vm_compute; split; congruence);
    try (vm_compute; reflexivity);
    try (vm_compute; congruence); cbn; lia.
Defined.

Lemma overlap_time_read_as_dst_witness :
  localToUtc 1730597400000 tdEST false = Some (1730597400000 - -240 * 60000) /\
  utcToLocal (1730597400000 - -240 * 60000) tdEST = Some 1730597400000 /\
  utcToLocal (1730597400000 - -300 * 60000) tdEST = Some 1730597400000.
Proof.
  apply (overlap_time_read_as_dst tdEST ltac:(constructor; cbn; lia)
           1730597400000 2024 1710054000000 1730613600000);
    try (vm_compute; split; congruence);
    try (vm_compute; reflexivity);
    try (vm_compute; congruence); cbn; lia.
Defined.

(** ** The instance overload of [localToUtc] on a warm cache *)

Lemma computeDstStartMs_range (y s : Z) (tz : TimezoneDefinition) :
  computeDstStartMs y tz = Some s -> 0 <= s < 18446744073709551616.
Proof.
  unfold computeDstStartMs.
  destruct (getDstSwitchDay _ _ _ _); cbn [obind]; [| discriminate].
  destruct (dateToMs _ _ _ _ _ _); cbn [obind]; [| discriminate].
  intros H; injection H as <-. apply u64_range.
Qed.

Lemma computeDstEndMs_range (y e : Z) (tz : TimezoneDefinition) :
  computeDstEndMs y tz = Some e -> 0 <= e < 18446744073709551616.
Proof.
  unfold computeDstEndMs.
  destruct (getDstSwitchDay _ _ _ _); cbn [obind]; [| discriminate].
  destruct (dateToMs _ _ _ _ _ _); cbn [obind]; [| discriminate].
  intros H; injection H as <-. apply u64_range.
Qed.

(** X19. On a freshly configured instance with a DST-within-the-year rule,
    a call of [utcToLocal(uint64_t)] after the end transition of its year
    caches the standard period up to the next start transition.  From then
    on the instance overload of [localToUtc] answers every local time whose
    standard-offset approximation [u] lies in that period with the standard
    offset and leaves the cache as it is: it takes the hit path and never
    reaches the local comparison, also for the local times of the overlap,
    which the explicit-rule overload reads as DST. *)
Theorem warm_cache_reads_local_time_as_standard (tz : TimezoneDefinition)
    (t1 y s e sn u : Z) (preferDst : bool) :
  dst_start_month tz <> 0 ->
  yearFromMs t1 = Some y ->
  computeDstStartMs y tz = Some s ->
  computeDstEndMs y tz = Some e ->
  computeDstStartMs (u16 (y + 1)) tz = Some sn ->
  s < e ->
  e <= t1 ->
  e <= u < sn ->
  exists l1 self1,
    utcToLocal_self (mkTranslator tz emptyCache) t1 = Some (l1, self1) /\
    self1 = mkTranslator tz (mkCache e sn (offset_min tz)) /\
    localToUtc_self self1 (u64 (u + offset_min tz * 60000)) preferDst
      = Some (u, self1).
Proof.
  intros Hdst Hy Hs He Hsn Hse Ht1 Hu.
  pose proof (computeDstEndMs_range _ _ _ He) as Her.
  pose proof (computeDstStartMs_range _ _ _ Hsn) as Hsnr.
  assert (Hstart : (dst_start_month tz =? 0) = false) by (apply Z.eqb_neq; exact Hdst).
  exists (u64 (t1 + offset_min tz * 60000)),
         (mkTranslator tz (mkCache e sn (offset_min tz))).
  split; [| split; [reflexivity |]].
  - unfold utcToLocal_self, getOffsetForUtc. cbn [tz_ cache_].
    rewrite Hstart, cacheHit_empty.
    unfold missPeriod, computeDstTransitions.
    rewrite Hy. cbn [obind]. rewrite Hs, He. cbn [obind].
    destruct (Z.ltb_spec s e); [| lia].
    destruct (Z.ltb_spec t1 s); [lia |].
    destruct (Z.ltb_spec t1 e); [lia |].
    rewrite Hsn. reflexivity.
  - unfold localToUtc_self, getOffsetForLocal. cbn [tz_ cache_].
    rewrite Hstart.
    rewrite u64_add_sub by (change (2 ^ 64) with 18446744073709551616; lia).
    assert (Hhit : cacheHit u (mkCache e sn (offset_min tz)) = true).
    { unfold cacheHit. cbn [valid_from_ms valid_until_ms].
      apply andb_true_iff; split; [apply Z.geb_le | apply Z.ltb_lt]; lia. }
    rewrite Hhit. cbn [obind fst snd current_offset].
    rewrite u64_add_sub by (change (2 ^ 64) with 18446744073709551616; lia).
    reflexivity.
Qed.

Lemma warm_cache_reads_local_time_as_standard_witness :
  exists l1 self1,
    utcToLocal_self (mkTranslator tdEST emptyCache) 1730620000000 = Some (l1, self1) /\
    self1 = mkTranslator tdEST (mkCache 1730613600000 1741503600000 (-300)) /\
    localToUtc_self self1 (u64 (1730615400000 + -300 * 60000)) true
      = Some (1730615400000, self1).
Proof.
  apply (warm_cache_reads_local_time_as_standard tdEST 1730620000000 2024
           1710054000000 1730613600000 1741503600000 1730615400000 true).
  - discriminate.
  - vm_compute; reflexivity.
  - vm_compute; reflexivity.
  - vm_compute; reflexivity.
  - vm_compute; reflexivity.
  - lia.
  - lia.
  - lia.
Defined.

(** ** The window of the 32-bit overloads *)

(** X20. [normalize32] is one-to-one and maps the 32-bit seconds onto the
    instants from 2020-01-01T00:00:00 to early 2156: the seconds are
    recovered as the low 32 bits of the result divided by 1000, and the
    year that the resolver derives is one of 2020..2156, inside its range
    1970..2500.  No 32-bit input denotes an instant before 2020. *)
Theorem normalize32_window (s : Z) :
  0 <= s < 2 ^ 32 ->
  dateToMs 2020 1 1 0 0 0 = Some 1577836800000 /\
  1577836800000 <= normalize32 s < 5872804096000 /\
  (normalize32 s / 1000) mod 2 ^ 32 = s /\
  exists Y, yearFromMs (normalize32 s) = Some Y /\ 2020 <= Y <= 2156.
Proof.
  intros Hs. change (2 ^ 32) with 4294967296 in *.
  split; [reflexivity |].
  assert (E : normalize32 s = (if s <? 1577836800 then s + 4294967296 else s) * 1000).
  { unfold normalize32, UNIX_OFFSET_2020.
    destruct (Z.ltb_spec s 1577836800).
    - rewrite (u64_small (s + 4294967296)) by lia. apply u64_small; lia.
    - apply u64_small; lia. }
  assert (Hr : 1577836800000 <= normalize32 s < 5872804096000)
    by (rewrite E; destruct (Z.ltb_spec s 1577836800); lia).
  split; [exact Hr |]. split.
  - rewrite E. destruct (Z.ltb_spec s 1577836800);
      rewrite Z.div_mul by lia; Z.div_mod_to_equations; lia.
  - destruct (yearFromDays_total (u32 (normalize32 s / 86400000))) as [Y [EY _]].
    fold (yearFromMs (normalize32 s)) in EY.
    exists Y. split; [exact EY |].
    destruct (yearFromMs_bounds (normalize32 s) Y ltac:(lia) EY) as [HY Hb].
    assert (H2020 : daysToYear 2020 = 18262) by reflexivity.
    assert (H2157 : daysToYear 2157 = 68301) by reflexivity.
    split.
    + destruct (Z.le_gt_cases 2020 Y) as [C | C]; [exact C | exfalso].
      pose proof (daysToYear_mono (Y + 1) 2020 ltac:(lia)). lia.
    + destruct (Z.le_gt_cases Y 2156) as [C | C]; [exact C | exfalso].
      pose proof (daysToYear_mono 2157 Y ltac:(lia)). lia.
Qed.

Lemma normalize32_window_witness :
  exists Y, yearFromMs (normalize32 1000000000) = Some Y /\ 2020 <= Y <= 2156.
Proof.
  apply (normalize32_window 1000000000). vm_compute; split; congruence.
Defined.
